(** * Attendance marker: a shallow embedding of [attendance_app/app.py]
      and [attendance_app/utils.py]

    The roster is a pandas [DataFrame] read with [read_csv]/[read_excel],
    hence with the default [RangeIndex].  It is modelled column-wise, the way
    pandas stores it: a row count and a finite map from column labels to the
    list of cells of that column.  Library calls follow the documented
    behaviour of pandas 2.x: [astype(str)] maps every cell, missing or not,
    through Python's [str]; assigning a scalar through [df.loc[mask, c]]
    writes the masked rows and, when [c] is a new label, creates the column
    with [NaN] in the other rows.  Python [str] values are modelled by
    [string]. *)

From Stdlib Require Import ZArith String Ascii List Lia.
From stdpp Require Import base option list gmap strings fin_maps pretty.

Local Open Scope string_scope.

(** ** Cells and series *)

(** The Python objects that occur as cells of the roster.  A float other
    than [nan] is kept as the text that [str] gives for it. *)
Inductive Cell : Type :=
| CNone                (* None *)
| CNaN                 (* float('nan'), pandas' missing-value marker *)
| CBool (b : bool)
| CInt (z : Z)
| CFloat (repr : string)
| CStr (s : string).

#[global] Instance Cell_eq_dec : EqDecision Cell.
Proof. solve_decision. Defined.

(** Python's [str(x)]. *)
Definition py_str (x : Cell) : string :=
  match x with
  | CNone => "None"
  | CNaN => "nan"
  | CBool true => "True"
  | CBool false => "False"
  | CInt z => pretty z
  | CFloat repr => repr
  | CStr s => s
  end.

(** [pandas.isna] on a scalar. *)
Definition isna (x : Cell) : bool :=
  match x with
  | CNone | CNaN => true
  | _ => false
  end.

(** [Series.astype(str)]. *)
Definition astype_str (s : list Cell) : list Cell :=
  (λ x, CStr (py_str x)) <$> s.

(** [Series.fillna(v)]. *)
Definition fillna (v : Cell) (s : list Cell) : list Cell :=
  (λ x, if isna x then v else x) <$> s.

(** One comparison of [series == identifier] with [identifier] a [str]. *)
Definition cell_eq_str (x : Cell) (identifier : string) : bool :=
  match x with
  | CStr s => bool_decide (s = identifier)
  | _ => false
  end.

(** [series == identifier], element-wise. *)
Definition eq_scalar (s : list Cell) (identifier : string) : list bool :=
  (λ x, cell_eq_str x identifier) <$> s.

(** [m1 | m2] on boolean series over the same index. *)
Definition series_or (m1 m2 : list bool) : list bool := zip_with orb m1 m2.

(** [mask.any()]. *)
Definition series_any (m : list bool) : bool := foldr orb false m.

(** ** Data frames *)

Record DataFrame : Type := mkDF {
  nrows : nat;                        (* len(df) *)
  data : gmap string (list Cell)      (* df[c] for c in df.columns *)
}.

(** [c in df.columns]. *)
Definition has_column (df : DataFrame) (c : string) : bool :=
  bool_decide (is_Some (data df !! c)).

(** [df.get(c, default)]. *)
Definition df_get (df : DataFrame) (c : string) (dflt : list Cell) : list Cell :=
  default dflt (data df !! c).

(** [df[c] = v] with [v] a scalar: the whole column becomes [v]. *)
Definition setitem (df : DataFrame) (c : string) (v : Cell) : DataFrame :=
  {| nrows := nrows df; data := <[c := replicate (nrows df) v]> (data df) |}.

(** The masked rows of a column take the value [v]. *)
Definition set_masked (mask : list bool) (v : Cell) (col : list Cell) : list Cell :=
  zip_with (λ (m : bool) x, if m then v else x) mask col.

(** [df.loc[mask, c] = v] with [v] a scalar.  A label that is not a column
    yet is added, with [NaN] in the rows outside the mask. *)
Definition loc_set (df : DataFrame) (mask : list bool) (c : string) (v : Cell)
  : DataFrame :=
  {| nrows := nrows df;
     data := <[c := set_masked mask v
                      (default (replicate (nrows df) CNaN) (data df !! c))]>
               (data df) |}.

(** The cell of column [c] in row [i]. *)
Definition cell (df : DataFrame) (c : string) (i : nat) : option Cell :=
  data df !! c ≫= (λ col, col !! i).

(** Every column has one cell per row. *)
Definition wf (df : DataFrame) : Prop :=
  map_Forall (λ _ col, length col = nrows df) (data df).

(** What is compared with the identifier in row [i] for the lookup column
    [k]: the text of the cell, and the text of [None] when the roster has no
    such column. *)
Definition lookup_text (df : DataFrame) (k : string) (i : nat) : string :=
  py_str (default CNone (cell df k i)).

(** ** [ensure_attendance_columns] *)

Definition DEFAULT_COLUMNS : list string := ["Dinner"; "Pizza"; "Breakfast"; "MRD"].

(** [f"{c}_ts"]. *)
Definition ts_col (c : string) : string := c +:+ "_ts".

(** The body of the loop of [ensure_attendance_columns]. *)
Definition ensure_column (df : DataFrame) (c : string) : DataFrame :=
  let df1 := if has_column df c then df else setitem df c (CBool false) in
  if has_column df1 (ts_col c) then df1 else setitem df1 (ts_col c) (CStr "").

Definition ensure_attendance_columns (df : DataFrame) : DataFrame :=
  fold_left ensure_column DEFAULT_COLUMNS df.

(** ** The clock: [datetime.now().isoformat()] *)

(** A naive [datetime]; its fields are within the ranges the class enforces
    (year 1..9999, month 1..12, ..., microsecond 0..999999). *)
Record datetime : Type := mkDT {
  year : N; month : N; day : N;
  hour : N; minute : N; second : N; microsecond : N
}.

Definition digit (n : N) : ascii := ascii_of_N (48 + n mod 10).

(** ["%0wd" % n] for [n < 10 ^ w]. *)
Fixpoint zfill (w : nat) (n : N) : string :=
  match w with
  | O => ""
  | S w' => zfill w' (n / 10) +:+ String (digit n) ""
  end.

(** [datetime.isoformat()]: [YYYY-MM-DDTHH:MM:SS], followed by [.ffffff]
    when the microsecond is not zero. *)
Definition isoformat (d : datetime) : string :=
  zfill 4 (year d) +:+ "-" +:+ zfill 2 (month d) +:+ "-" +:+ zfill 2 (day d)
  +:+ "T" +:+ zfill 2 (hour d) +:+ ":" +:+ zfill 2 (minute d) +:+ ":"
  +:+ zfill 2 (second d)
  +:+ (if N.eqb (microsecond d) 0 then "" else "." +:+ zfill 6 (microsecond d)).

Definition is_digit (a : ascii) : bool :=
  let n := N_of_ascii a in N.leb 48 n && N.leb n 57.

(** The shape of an ISO-8601 local date and time, with an optional
    six-digit fraction of a second. *)
Definition is_iso8601 (s : string) : bool :=
  match s with
  | String y1 (String y2 (String y3 (String y4 (String "-"
    (String m1 (String m2 (String "-"
    (String d1 (String d2 (String "T"
    (String h1 (String h2 (String ":"
    (String n1 (String n2 (String ":"
    (String s1 (String s2 rest)))))))))))))))))) =>
      forallb is_digit [y1; y2; y3; y4; m1; m2; d1; d2; h1; h2; n1; n2; s1; s2]
      && match rest with
         | "" => true
         | String "." (String f1 (String f2 (String f3 (String f4
             (String f5 (String f6 "")))))) =>
             forallb is_digit [f1; f2; f3; f4; f5; f6]
         | _ => false
         end
  | _ => false
  end.

(** The lookup columns of [mark_attendance]. *)
Definition id_columns : list string := ["Srn"; "Email"; "Name"].

(** ** The world [mark_attendance] runs in *)

(** How many times the clock has been read, and the roster files on disk. *)
Record World : Type := mkWorld {
  ticks : nat;
  disk : gmap string DataFrame
}.

(** Is the Python string truthy. *)
Definition truthy (s : string) : bool := negb (bool_decide (s = "")).

Section Attendance.

(** The value of the [k]-th reading of the local clock. *)
Variable now_at : nat → datetime.

(** [csv_error path df] is [Some e] when [df.to_csv(path, index=False)]
    raises an exception whose text is [e]. *)
Variable csv_error : string → DataFrame → option string.

(** [datetime.now()]. *)
Definition now (w : World) : datetime * World :=
  (now_at (ticks w), {| ticks := S (ticks w); disk := disk w |}).

(** [df.to_csv(path, index=False)]: the file is replaced, or an exception
    is raised and its text returned; what a failed write leaves in the file
    is not modelled. *)
Definition to_csv (df : DataFrame) (path : string) (w : World)
  : option string * World :=
  match csv_error path df with
  | Some e => (Some e, w)
  | None => (None, {| ticks := ticks w; disk := <[path := df]> (disk w) |})
  end.

(** The comparison of one lookup column with the identifier:
    [df.get(k, pd.Series([None]*len(df))).astype(str).fillna("") == identifier]. *)
Definition key_mask (df : DataFrame) (k identifier : string) : list bool :=
  eq_scalar
    (fillna (CStr "") (astype_str (df_get df k (replicate (nrows df) CNone))))
    identifier.

(** [mask] of [mark_attendance]. *)
Definition id_mask (df : DataFrame) (identifier : string) : list bool :=
  series_or (series_or (key_mask df "Srn" identifier)
                       (key_mask df "Email" identifier))
            (key_mask df "Name" identifier).

(** The body of the loop over [columns_to_mark]. *)
Definition mark_column (mask : list bool) (st : DataFrame * World) (c : string)
  : DataFrame * World :=
  let df0 := if has_column st.1 c then st.1 else setitem st.1 c (CBool false) in
  let df1 := loc_set df0 mask c (CBool true) in
  let tw := now st.2 in
  (loc_set df1 mask (ts_col c) (CStr (isoformat tw.1)), tw.2).

(** [mark_attendance(df, identifier, columns_to_mark, source_path)].  The
    frame is mutated in place by the source; here the frame after the call
    is returned next to the world and the [(ok, message)] pair. *)
Definition mark_attendance (df : DataFrame) (identifier : string)
    (columns_to_mark : list string) (source_path : option string) (w : World)
  : DataFrame * World * (bool * string) :=
  let mask := id_mask df identifier in
  if negb (series_any mask) then
    (df, w, (false, "No matching row found for id '" +:+ identifier +:+ "'"))
  else
    let st := fold_left (mark_column mask) columns_to_mark (df, w) in
    match source_path with
    | Some path =>
        if truthy path then
          let r := to_csv st.1 path st.2 in
          match r.1 with
          | Some e =>
              (st.1, r.2,
               (true, "Marked (but failed to write to source CSV: " +:+ e +:+ ")"))
          | None => (st.1, r.2, (true, "Marked"))
          end
        else (st.1, st.2, (true, "Marked"))
    | None => (st.1, st.2, (true, "Marked"))
    end.

End Attendance.

(** ** [decode_qr_from_bytes] of [utils.py] *)

Module Codec.

(** A call either returns a value or raises an exception, kept as its text. *)
Inductive outcome (A : Type) : Type :=
| Returns (a : A)
| Raises (e : string).
Arguments Returns {A} a.
Arguments Raises {A} e.

Section Decode.

(** The images of OpenCV and of PIL. *)
Variables CvImage PilImage : Type.

(** What [decode_qr_from_bytes] uses of [cv2]: [cv2.imdecode], which
    returns [None] for a buffer it cannot read, and
    [cv2.QRCodeDetector().detectAndDecode], of which the decoded text is
    kept. *)
Record cv2_module : Type := mkCv2 {
  imdecode : list Byte.byte → outcome (option CvImage);
  detectAndDecode : option CvImage → outcome string
}.

(** The libraries of the host.  An import that raises leaves [None]. *)
Record libs : Type := mkLibs {
  import_cv2 : option cv2_module;
  import_pyzbar : option (PilImage → outcome (list (list Byte.byte)));
  (* Image.open(io.BytesIO(image_bytes)).convert("RGB") *)
  Image_open : list Byte.byte → outcome PilImage;
  (* data.decode("utf-8"), None on UnicodeDecodeError *)
  utf8_decode : list Byte.byte → option string
}.

(** [data.decode("latin-1")]: one character per byte. *)
Definition latin1_decode (data : list Byte.byte) : string :=
  string_of_list_byte data.

(** The [try] block around the OpenCV detector: the text when one was
    decoded, and nothing after an exception or an empty text. *)
Definition cv2_attempt (cv2 : cv2_module) (image_bytes : list Byte.byte)
  : option string :=
  match imdecode cv2 image_bytes with
  | Raises _ => None
  | Returns img =>
      match detectAndDecode cv2 img with
      | Raises _ => None
      | Returns text => if truthy text then Some text else None
      end
  end.

Definition decode_qr_from_bytes (L : libs) (image_bytes : list Byte.byte)
  : outcome (option string) :=
  match import_cv2 L ≫= (λ cv2, cv2_attempt cv2 image_bytes) with
  | Some text => Returns (Some text)
  | None =>
      match import_pyzbar L with
      | Some pyzbar_decode =>
          match Image_open L image_bytes with
          | Raises e => Raises e
          | Returns img =>
              match pyzbar_decode img with
              | Raises e => Raises e
              | Returns [] => Returns None
              | Returns (data :: _) =>
                  match utf8_decode L data with
                  | Some text => Returns (Some text)
                  | None => Returns (Some (latin1_decode data))
                  end
              end
          end
      | None => Returns None
      end
  end.

End Decode.

Arguments imdecode {CvImage} _ _.
Arguments detectAndDecode {CvImage} _ _.
Arguments mkCv2 {CvImage} _ _.
Arguments mkLibs {CvImage PilImage} _ _ _ _.
Arguments import_cv2 {CvImage PilImage} _.
Arguments import_pyzbar {CvImage PilImage} _.
Arguments Image_open {CvImage PilImage} _ _.
Arguments utf8_decode {CvImage PilImage} _ _.
Arguments cv2_attempt {CvImage} _ _.
Arguments decode_qr_from_bytes {CvImage PilImage} _ _.

(** A host with both decoders installed, given bytes that are not an
    image: OpenCV cannot read the buffer and its detector rejects the
    missing image; PIL recognises no format in a buffer that does not
    start like a PNG file. *)
Definition not_an_image : list Byte.byte := list_byte_of_string "not an image".

Definition both_decoders : @libs unit unit :=
  mkLibs
    (Some (mkCv2 (λ _, Returns None)
                 (λ img, match img with
                         | None => Raises "OpenCV: (-215:Assertion failed)"
                         | Some _ => Returns ""
                         end)))
    (Some (λ _, Returns []))
    (λ b, match b with
          | Byte.x89 :: _ => Returns tt
          | _ => Raises "cannot identify image file"
          end)
    (λ _, None).

(** The same host without pyzbar. *)
Definition opencv_only : @libs unit unit :=
  mkLibs (import_cv2 both_decoders) None
         (Image_open both_decoders) (utf8_decode both_decoders).

End Codec.

(** ** Sample rosters and hosts *)

(** A clock that advances by one second at each reading. *)
Definition clock0 (k : nat) : datetime :=
  mkDT 2025 3 9 18 30 (N.of_nat k mod 60) 250000.

Definition world0 : World := mkWorld 0 ∅.

(** A disk that takes every write, and one that refuses them. *)
Definition csv_ok : string → DataFrame → option string := λ _ _, None.
Definition csv_denied : string → DataFrame → option string :=
  λ _ _, Some "[Errno 13] Permission denied".

Definition roster_alice : DataFrame :=
  mkDF 1 {[ "Name" := [CStr "Alice"]; "Srn" := [CStr "1"];
            "Email" := [CStr "a@x.com"]; "Dinner" := [CBool false] ]}.

(** Two records that share the empty e-mail address. *)
Definition roster_blank : DataFrame :=
  mkDF 2 {[ "Name" := [CStr "Ann"; CStr "Ben"]; "Srn" := [CStr "7"; CStr "8"];
            "Email" := [CStr ""; CStr ""]; "Pizza" := [CBool false; CBool false] ]}.

(** A roster with a [Name] column only. *)
Definition roster_names : DataFrame :=
  mkDF 2 {[ "Name" := [CStr "Alice"; CStr "Bob"] ]}.

(** A participant whose name is the text of a boolean. *)
Definition roster_false : DataFrame :=
  mkDF 2 {[ "Name" := [CStr "False"; CStr "Bob"] ]}.

(** ** File names: [sanitize_filename] of [app.py] *)

(** [c.isspace()] for a character of Latin-1, which is what [\s] matches
    and what [str.strip()] removes. *)
Definition is_space (a : ascii) : bool :=
  let n := N_of_ascii a in
  (N.leb 9 n && N.leb n 13) || (N.leb 28 n && N.leb n 32)
  || N.eqb n 133 || N.eqb n 160.

(** Do all the characters of [s] satisfy [p]. *)
Fixpoint all_chars (p : ascii → bool) (s : string) : bool :=
  match s with
  | "" => true
  | String a s' => p a && all_chars p s'
  end.

(** [re.sub] of a repeated character class by the empty text: the
    characters of the class are removed. *)
Fixpoint remove_chars (cls : ascii → bool) (s : string) : string :=
  match s with
  | "" => ""
  | String a s' =>
      if cls a then remove_chars cls s' else String a (remove_chars cls s')
  end.

(** [re.sub] of [\s+] by an underscore: every maximal run of whitespace
    becomes one underscore.  [in_run] tells that the previous character was whitespace. *)
Fixpoint collapse_space (in_run : bool) (s : string) : string :=
  match s with
  | "" => ""
  | String a s' =>
      if is_space a
      then if in_run then collapse_space true s'
           else String "_" (collapse_space true s')
      else String a (collapse_space false s')
  end.

(** The character class of the first substitution of [app.py]: backslash,
    slash, colon, star, question mark, double quote, angle brackets, bar. *)
Definition is_forbidden (a : ascii) : bool :=
  existsb (Ascii.eqb a)
          ["\"; "/"; ":"; "*"; "?"; "034"; "<"; ">"; "|"]%char.

(** The characters that [sanitize_filename] of [app.py] lets through. *)
Definition is_clean (a : ascii) : bool := negb (is_forbidden a) && negb (is_space a).

(** [sanitize_filename] of [app.py]. *)
Definition sanitize_filename (s : string) : string :=
  if truthy s
  then collapse_space false (remove_chars is_forbidden s)
  else "unknown".

(** ** [create_qr_manifest.py] *)

Module Manifest.

(** [s.lstrip(chars)] and [s.rstrip(chars)] for a set of characters. *)
Fixpoint lstrip (p : ascii → bool) (s : string) : string :=
  match s with
  | "" => ""
  | String a s' => if p a then lstrip p s' else s
  end.

Fixpoint rstrip (p : ascii → bool) (s : string) : string :=
  match s with
  | "" => ""
  | String a s' =>
      match rstrip p s' with
      | "" => if p a then "" else String a ""
      | r => String a r
      end
  end.

(** [s.strip(chars)]. *)
Definition strip (p : ascii → bool) (s : string) : string := rstrip p (lstrip p s).

Definition is_alnum (a : ascii) : bool :=
  let n := N_of_ascii a in
  (N.leb 48 n && N.leb n 57) || (N.leb 65 n && N.leb n 90)
  || (N.leb 97 n && N.leb n 122).

(** The characters that [[^A-Za-z0-9 _-]] does not match. *)
Definition is_kept (a : ascii) : bool :=
  is_alnum a || Ascii.eqb a " " || Ascii.eqb a "_" || Ascii.eqb a "-".

(** [sanitize_filename] of [create_qr_manifest.py]; its argument is a cell
    of the roster, or the empty text when the roster has no team column. *)
Definition sanitize_filename (s : Cell) : string :=
  match s with
  | CNone => "unknown"
  | _ =>
      let s1 := remove_chars (λ a, negb (is_kept a)) (py_str s) in
      let s2 := strip (Ascii.eqb "_") (collapse_space false s1) in
      if truthy s2 then s2 else "unknown"
  end.

(** [QR_PATH_TEMPLATE.format(filename=filename)]: the template ends with
    its only field. *)
Definition QR_PATH_FOLDER : string :=
  "C:\Users\Lenovo\Pictures\Club Work\Vegavath\ignition 1.0\ParticipantQR\".

Definition qr_path (filename : string) : string := QR_PATH_FOLDER +:+ filename.

(** The first of the preferred labels that is a column of the roster. *)
Definition preferred_column (df : DataFrame) (labels : list string)
  : option string :=
  List.find (has_column df) labels.

(** [row.get(c)] for the row [i] of [df.iterrows()]. *)
Definition row_get (df : DataFrame) (i : nat) (c : string) : Cell :=
  default CNone (cell df c i).

(** One line of the manifest: the team, the name and the path of the code. *)
Definition manifest_row (df : DataFrame) (team_col : option string)
    (name_col : string) (i : nat) : Cell * Cell * string :=
  let team := match team_col with
              | Some c => row_get df i c
              | None => CStr ""
              end in
  let name := row_get df i name_col in
  let filename := sanitize_filename team +:+ "_" +:+ sanitize_filename name
                  +:+ ".png" in
  (team, name, qr_path filename).

(** The lines that [main] writes under the header, or [None] when it exits
    because the roster has no name column. *)
Definition manifest (df : DataFrame) : option (list (Cell * Cell * string)) :=
  let team_col := preferred_column df ["Team Name"; "teamName"; "team"; "Team"] in
  match preferred_column df ["Name"; "name"; "Full Name"; "FullName"] with
  | None => None
  | Some name_col => Some (manifest_row df team_col name_col <$> seq 0 (nrows df))
  end.

End Manifest.

(** ** [extract_to_excel.py] *)

Module Extract.

(** The values that [json.load] returns.  A float is kept as the text that
    [str] gives for it. *)
#[warnings="-register-all"]
Inductive json : Type :=
| JNull
| JBool (b : bool)
| JNum (z : Z)
| JFloat (repr : string)
| JStr (s : string)
| JList (l : list json)
| JDict (d : gmap string json).

(** The exceptions that leave [extract_from_file]. *)
Inductive exn : Type := AttributeError | TypeError.

Inductive result (A : Type) : Type :=
| Ok (a : A)
| Err (e : exn).
Arguments Ok {A} a.
Arguments Err {A} e.

(** An exception ends the computation: [x ← r; k] goes on with the value
    of [r] when there is one. *)
#[global] Instance result_bind : MBind result := λ A B k r,
  match r with
  | Ok a => k a
  | Err e => Err e
  end.

(** The truth value of a Python object. *)
Definition truth (v : json) : bool :=
  match v with
  | JNull => false
  | JBool b => b
  | JNum z => negb (Z.eqb z 0)
  | JFloat repr =>
      negb (bool_decide (repr = "0.0") || bool_decide (repr = "-0.0"))
  | JStr s => truthy s
  | JList l => match l with [] => false | _ => true end
  | JDict d => negb (bool_decide (d = ∅))
  end.

(** [a or b]. *)
Definition por (a b : json) : json := if truth a then a else b.
Infix "or'" := por (at level 50, left associativity).

(** [d.get(k)] for a dict [d]. *)
Definition dget (d : gmap string json) (k : string) : json :=
  default JNull (d !! k).

(** [v.get], which only a dict has. *)
Definition as_dict (v : json) : result (gmap string json) :=
  match v with
  | JDict d => Ok d
  | _ => Err AttributeError
  end.

(** [v.strip()], which only a text has. *)
Definition str_strip (v : json) : result string :=
  match v with
  | JStr s => Ok (Manifest.strip is_space s)
  | _ => Err AttributeError
  end.

(** [sep.join(l)]. *)
Fixpoint join (sep : string) (l : list string) : string :=
  match l with
  | [] => ""
  | [x] => x
  | x :: l' => x +:+ sep +:+ join sep l'
  end.

Definition is_null (v : json) : bool :=
  match v with
  | JNull => true
  | _ => false
  end.

(** One record of the roster that is written out. *)
Record row : Type := mkRow {
  Team_Name : json; Name : json; Srn : string; Email : string;
  Phone_No : json; Campus : json; Sem : string; Sec : json;
  Dep : string; Hostel : string; Payment_url : json
}.

(** [srn or email or (name + "::" + phone)]: the concatenation is only
    evaluated when both texts are empty, and needs two texts. *)
Definition dedupe_key (name : json) (srn email : string) (phone : json)
  : result string :=
  if truthy srn then Ok srn
  else if truthy email then Ok email
  else match name, phone with
       | JStr n, JStr p => Ok (n +:+ "::" +:+ p)
       | _, _ => Err TypeError
       end.

(** The key under which a record was kept. *)
Definition row_key (r : row) : result string :=
  dedupe_key (Name r) (Srn r) (Email r) (Phone_No r).

(** The key [k] of the dict [d] is missing or holds a text. *)
Definition textual (d : gmap string json) (k : string) : Prop :=
  d !! k = None ∨ ∃ s, d !! k = Some (JStr s).

Section Extraction.

(** [str] of a list or of a dict, which prints its items with [repr]. *)
Variable container_str : json → string.

(** [str(v)]. *)
Definition str (v : json) : string :=
  match v with
  | JNull => "None"
  | JBool true => "True"
  | JBool false => "False"
  | JNum z => pretty z
  | JFloat repr => repr
  | JStr s => s
  | JList _ | JDict _ => container_str v
  end.

Definition safe_join_list (val : json) : string :=
  match val with
  | JNull => ""
  | JList l => join ", " (str <$> List.filter (λ x, negb (is_null x)) l)
  | _ => str val
  end.

(** The body of the loop over the members up to the tests on the key: the
    key of the member and the record that is appended for it. *)
Definition member_row (team_name campus m : json) : result (string * row) :=
  d ← as_dict m;
  let name := dget d "name" or' dget d "fullName" or' JStr "" in
  srn ← str_strip (dget d "srn" or' dget d "SRN" or' JStr "");
  email ← str_strip (dget d "email" or' JStr "");
  let phone := dget d "phone" or' dget d "Phone" or' JStr "" in
  let sem := safe_join_list (dget d "semester" or' dget d "sem") in
  let sec := dget d "section" or' dget d "sec" or' JStr "" in
  let dep := safe_join_list (dget d "department" or' dget d "dept") in
  let hostel := safe_join_list (dget d "hostel" or' dget d "Hostel") in
  let payment_url := dget d "payment_url" or' dget d "paymentUrl"
                     or' dget d "paymentDataUrl" or' dget d "payment_data_url" in
  let payment_url :=
    if truth payment_url then payment_url
    else dget d "paymentName" or' dget d "payment_name" or' JStr "" in
  key ← dedupe_key name srn email phone;
  Ok (key, mkRow team_name name srn email phone campus sem sec dep hostel
                 payment_url).

(** The records of the members, duplicates included. *)
Definition rows_of (team_name campus : json) (ms : list json) : list row :=
  omap (λ m, match member_row team_name campus m with
             | Ok kr => Some kr.2
             | Err _ => None
             end) ms.

(** One turn of the loop: the rows so far and the keys seen. *)
Definition add_member (team_name campus : json)
    (st : list row * gset string) (m : json) : result (list row * gset string) :=
  kr ← member_row team_name campus m;
  if negb (truthy kr.1) then Ok st
  else if bool_decide (kr.1 ∈ st.2) then Ok st
  else Ok ((st.1 ++ [kr.2])%list, {[kr.1]} ∪ st.2).

Fixpoint add_members (team_name campus : json)
    (st : list row * gset string) (ms : list json)
  : result (list row * gset string) :=
  match ms with
  | [] => Ok st
  | m :: ms' =>
      st' ← add_member team_name campus st m;
      add_members team_name campus st' ms'
  end.

(** The team name, the campus and the members of a document. *)
Definition doc_team_name (d : gmap string json) : json :=
  dget d "teamName" or' dget d "team_name" or' dget d "TeamName" or' JStr "".

Definition doc_campus (d : gmap string json) : json :=
  default (JStr "") (d !! "campus").

Definition doc_members (d : gmap string json) : json :=
  dget d "members" or' JList [].

(** [extract_from_file] from the document that [json.load] has returned. *)
Definition extract_from_file (data : json) : result (list row) :=
  d ← as_dict data;
  match doc_members d with
  | JList ms =>
      st ← add_members (doc_team_name d) (doc_campus d) ([], ∅) ms;
      Ok st.1
  | JDict _ | JStr _ => Err AttributeError   (* the items have no [get] *)
  | _ => Err TypeError                       (* not iterable *)
  end.

End Extraction.

(** A team of three members, the second a duplicate of the first. *)
Definition team_members : list json :=
  [JDict {[ "name" := JStr "Alice"; "srn" := JStr " PES1 ";
            "email" := JStr "a@x.com" ]};
   JDict {[ "name" := JStr "Alice B"; "srn" := JStr "PES1" ]};
   JDict ∅].

Definition team_dict : gmap string json :=
  {[ "teamName" := JStr "Rockets"; "campus" := JStr "RR";
     "members" := JList team_members ]}.

Definition team_doc : json := JDict team_dict.

(** A team with a member whose SRN is a number. *)
Definition numeric_member : gmap string json :=
  {[ "name" := JStr "Bob"; "srn" := JNum 42 ]}.

Definition numeric_dict : gmap string json :=
  {[ "teamName" := JStr "Comets";
     "members" := JList [JDict {[ "name" := JStr "Ann"; "srn" := JStr "S1" ]};
                         JDict numeric_member] ]}.

(** The records extracted from [team_doc]. *)
Definition team_rows : list row :=
  [mkRow (JStr "Rockets") (JStr "Alice") "PES1" "a@x.com" (JStr "")
         (JStr "RR") "" (JStr "") "" "" (JStr "");
   mkRow (JStr "Rockets") (JStr "") "" "" (JStr "") (JStr "RR") ""
         (JStr "") "" "" (JStr "")].

(** The keys of a member that have to be texts. *)
Definition text_keys : list string :=
  ["name"; "fullName"; "srn"; "SRN"; "email"; "phone"; "Phone"].

(** What the loop keeps true: the records have pairwise different keys,
    none of them empty, their [Srn] and [Email] are stripped, and the keys
    seen are those of the records. *)
Definition loop_inv (st : list row * gset string) : Prop :=
  NoDup (row_key <$> st.1)
  ∧ Forall (λ r, ∃ k, row_key r = Ok k ∧ k ≠ ""
                      ∧ Manifest.strip is_space (Srn r) = Srn r
                      ∧ Manifest.strip is_space (Email r) = Email r) st.1
  ∧ ∀ k, k ∈ st.2 ↔ Ok k ∈ (row_key <$> st.1).

End Extract.

(** The characters of a name sanitized for the manifest: letters, digits,
    underscore and hyphen. *)
Definition is_name_char (a : ascii) : bool :=
  Manifest.is_alnum a || Ascii.eqb a "_" || Ascii.eqb a "-".

(** Does [s] begin with a character other than those of [p], if it begins
    at all. *)
Definition starts_ok (p : ascii → bool) (s : string) : bool :=
  match s with
  | "" => true
  | String a _ => negb (p a)
  end.

(** The attendance column [c] and its timestamp column are paired in [df]:
    in every record the flag is a boolean, the timestamp is a text, and the
    timestamp is empty exactly when the flag is [False]. *)
Definition paired (df : DataFrame) (c : string) : Prop :=
  ∀ i, i < nrows df →
    ∃ b t, cell df c i = Some (CBool b)
           ∧ cell df (ts_col c) i = Some (CStr t)
           ∧ (b = true ↔ t ≠ "").

(** Closed decidable goals are settled by evaluation. *)
Ltac by_compute := refine (bool_decide_unpack _ _); vm_compute; exact I.

(** * Properties *)

(** ** Columns and labels *)

Lemma has_column_true df c : has_column df c = true ↔ is_Some (data df !! c).
Proof. unfold has_column. apply bool_decide_eq_true. Qed.

Lemma has_column_false df c : has_column df c = false ↔ data df !! c = None.
Proof.
  unfold has_column. rewrite bool_decide_eq_false. symmetry. apply eq_None_not_Some.
Qed.

Lemma ts_col_neq c : ts_col c ≠ c.
Proof.
  unfold ts_col. induction c as [|a c IH]; simpl; [discriminate|].
  intros H. injection H as H. auto.
Qed.

Lemma setitem_lookup df c v :
  data (setitem df c v) !! c = Some (replicate (nrows df) v).
Proof. simpl. apply lookup_insert_eq. Qed.

Lemma setitem_lookup_ne df c v k :
  c ≠ k → data (setitem df c v) !! k = data df !! k.
Proof. intros. simpl. by apply lookup_insert_ne. Qed.

(** ** [ensure_attendance_columns] *)

Lemma ensure_column_nrows df c : nrows (ensure_column df c) = nrows df.
Proof. unfold ensure_column. repeat case_match; reflexivity. Qed.

Lemma ensure_column_other df c k :
  k ≠ c → k ≠ ts_col c → data (ensure_column df c) !! k = data df !! k.
Proof.
  intros H1 H2. unfold ensure_column.
  repeat case_match; rewrite ?setitem_lookup_ne; done.
Qed.

Lemma ensure_column_preserves df c k col :
  data df !! k = Some col → data (ensure_column df c) !! k = Some col.
Proof.
  intros Hk. unfold ensure_column.
  destruct (has_column df c) eqn:Hc.
  - destruct (has_column df (ts_col c)) eqn:Ht; [done|].
    apply has_column_false in Ht. rewrite setitem_lookup_ne; [done|congruence].
  - apply has_column_false in Hc.
    assert (data (setitem df c (CBool false)) !! k = Some col) as Hk'.
    { rewrite setitem_lookup_ne; [done|congruence]. }
    destruct (has_column _ (ts_col c)) eqn:Ht; [done|].
    apply has_column_false in Ht. rewrite setitem_lookup_ne; [done|congruence].
Qed.

Lemma ensure_column_flag df c :
  data df !! c = None →
  data (ensure_column df c) !! c = Some (replicate (nrows df) (CBool false)).
Proof.
  intros Hc. unfold ensure_column.
  apply has_column_false in Hc. rewrite Hc.
  pose proof (ts_col_neq c).
  case_match; rewrite ?setitem_lookup_ne by done; apply setitem_lookup.
Qed.

Lemma ensure_column_ts df c :
  data df !! ts_col c = None →
  data (ensure_column df c) !! ts_col c = Some (replicate (nrows df) (CStr "")).
Proof.
  intros Ht. unfold ensure_column. pose proof (ts_col_neq c).
  destruct (has_column df c).
  - apply has_column_false in Ht. rewrite Ht. apply setitem_lookup.
  - assert (has_column (setitem df c (CBool false)) (ts_col c) = false) as ->.
    { apply has_column_false. rewrite setitem_lookup_ne; [done|congruence]. }
    by rewrite setitem_lookup.
Qed.

Lemma ensure_column_has df c :
  is_Some (data (ensure_column df c) !! c)
  ∧ is_Some (data (ensure_column df c) !! ts_col c).
Proof.
  split.
  - destruct (data df !! c) as [col|] eqn:Hc.
    + erewrite ensure_column_preserves; eauto.
    + rewrite ensure_column_flag; eauto.
  - destruct (data df !! ts_col c) as [col|] eqn:Hc.
    + erewrite ensure_column_preserves; eauto.
    + rewrite ensure_column_ts; eauto.
Qed.

Lemma ensure_loop_nrows cs df : nrows (fold_left ensure_column cs df) = nrows df.
Proof.
  revert df. induction cs as [|c l IH]; intros df; simpl; [done|].
  by rewrite IH, ensure_column_nrows.
Qed.

Lemma ensure_loop_preserves cs df k col :
  data df !! k = Some col → data (fold_left ensure_column cs df) !! k = Some col.
Proof.
  revert df. induction cs as [|c l IH]; intros df Hk; simpl; [done|].
  by apply IH, ensure_column_preserves.
Qed.

Lemma ensure_loop_has cs df c :
  c ∈ cs →
  is_Some (data (fold_left ensure_column cs df) !! c)
  ∧ is_Some (data (fold_left ensure_column cs df) !! ts_col c).
Proof.
  revert df. induction cs as [|c' l IH]; intros df Hin; simpl.
  - by apply elem_of_nil in Hin.
  - apply elem_of_cons in Hin as [->|Hin]; [|by apply IH].
    destruct (ensure_column_has df c') as [[x Hx] [y Hy]].
    split; eexists; apply ensure_loop_preserves; eassumption.
Qed.

Lemma ensure_loop_flag cs df c :
  c ∈ cs → c ∉ (ts_col <$> cs) → data df !! c = None →
  data (fold_left ensure_column cs df) !! c
  = Some (replicate (nrows df) (CBool false)).
Proof.
  revert df. induction cs as [|c' l IH]; intros df Hin Hts Hc; simpl.
  - by apply elem_of_nil in Hin.
  - rewrite fmap_cons, not_elem_of_cons in Hts. destruct Hts as [Hne Hts].
    destruct (decide (c = c')) as [->|Hcc].
    + apply ensure_loop_preserves. by apply ensure_column_flag.
    + apply elem_of_cons in Hin as [?|Hin]; [done|].
      rewrite IH; [by rewrite ensure_column_nrows|done..|].
      by rewrite ensure_column_other.
Qed.

Lemma ensure_loop_ts cs df c :
  c ∈ cs → ts_col c ∉ cs → data df !! ts_col c = None →
  data (fold_left ensure_column cs df) !! ts_col c
  = Some (replicate (nrows df) (CStr "")).
Proof.
  revert df. induction cs as [|c' l IH]; intros df Hin Hts Hc; simpl.
  - by apply elem_of_nil in Hin.
  - rewrite not_elem_of_cons in Hts. destruct Hts as [Hne Hts].
    destruct (decide (ts_col c = ts_col c')) as [Heq|Hcc].
    + apply ensure_loop_preserves. rewrite Heq in *. by apply ensure_column_ts.
    + apply elem_of_cons in Hin as [->|Hin]; [done|].
      rewrite IH; [by rewrite ensure_column_nrows|done..|].
      by rewrite ensure_column_other.
Qed.

(** No default attendance column is the timestamp column of another one. *)
Lemma DEFAULT_COLUMNS_apart :
  Forall (λ c, (c ∉ (ts_col <$> DEFAULT_COLUMNS)) ∧ (ts_col c ∉ DEFAULT_COLUMNS))
         DEFAULT_COLUMNS.
Proof.
  refine (bool_decide_unpack _ _). vm_compute. exact I.
Qed.

(** ** Masked assignment *)

Lemma set_masked_absorb mask v1 v2 col :
  set_masked mask v2 (set_masked mask v1 col) = set_masked mask v2 col.
Proof.
  unfold set_masked. revert col.
  induction mask as [|m mask IH]; intros [|x col]; simpl; [done..|].
  rewrite IH. by destruct m.
Qed.

Lemma set_masked_length mask v col :
  length mask = length col → length (set_masked mask v col) = length col.
Proof. intros H. unfold set_masked. rewrite length_zip_with. lia. Qed.

Lemma set_masked_lookup_true mask v col i :
  mask !! i = Some true → i < length col → set_masked mask v col !! i = Some v.
Proof.
  intros Hm [x Hx]%lookup_lt_is_Some_2.
  unfold set_masked. by rewrite lookup_zip_with, Hm, Hx.
Qed.

Lemma set_masked_lookup_false mask v col i :
  mask !! i = Some false → set_masked mask v col !! i = col !! i.
Proof.
  intros Hm. unfold set_masked. rewrite lookup_zip_with, Hm. simpl.
  by destruct (col !! i).
Qed.

(** Marking a second time rows that are among those marked before changes
    nothing. *)
Lemma set_masked_below mask1 mask2 v col :
  length mask1 = length col → length mask2 = length col →
  (∀ i, mask2 !! i = Some true → mask1 !! i = Some true) →
  set_masked mask2 v (set_masked mask1 v col) = set_masked mask1 v col.
Proof.
  intros H1 H2 Hle. apply list_eq. intros i.
  unfold set_masked. rewrite !lookup_zip_with.
  destruct (mask2 !! i) as [b2|] eqn:E2; simpl.
  - destruct b2.
    + rewrite (Hle i E2). simpl. by destruct (col !! i).
    + by destruct (mask1 !! i) as [b1|], (col !! i).
  - apply lookup_ge_None in E2.
    assert (mask1 !! i = None) as -> by (apply lookup_ge_None; lia). done.
Qed.

Lemma loc_set_lookup df mask c v :
  data (loc_set df mask c v) !! c
  = Some (set_masked mask v (default (replicate (nrows df) CNaN) (data df !! c))).
Proof. simpl. apply lookup_insert_eq. Qed.

Lemma loc_set_lookup_ne df mask c v k :
  c ≠ k → data (loc_set df mask c v) !! k = data df !! k.
Proof. intros. simpl. by apply lookup_insert_ne. Qed.

(** ** The loop of [mark_attendance] *)

Section MarkLoop.

Variable now_at : nat → datetime.
Variable mask : list bool.

Local Abbreviation step := (mark_column now_at mask).

Lemma mark_column_nrows st c : nrows (step st c).1 = nrows st.1.
Proof. unfold mark_column. simpl. by case_match. Qed.

Lemma mark_column_world st c :
  ticks (step st c).2 = S (ticks st.2)
  ∧ disk (step st c).2 = disk st.2.
Proof. done. Qed.

Lemma mark_column_other st c k :
  k ≠ c → k ≠ ts_col c → data (step st c).1 !! k = data st.1 !! k.
Proof.
  intros H1 H2. unfold mark_column. cbn [fst snd].
  rewrite !loc_set_lookup_ne by done.
  case_match; [done|]. by rewrite setitem_lookup_ne.
Qed.

Lemma mark_column_flag st c :
  data (step st c).1 !! c
  = Some (set_masked mask (CBool true)
            (default (replicate (nrows st.1) (CBool false)) (data st.1 !! c))).
Proof.
  unfold mark_column. cbn [fst snd].
  rewrite loc_set_lookup_ne by apply ts_col_neq.
  rewrite loc_set_lookup.
  destruct (has_column st.1 c) eqn:Hc.
  - apply has_column_true in Hc as [col Hc]. by rewrite Hc.
  - apply has_column_false in Hc. by rewrite setitem_lookup, Hc.
Qed.

Lemma mark_column_ts st c :
  data (step st c).1 !! ts_col c
  = Some (set_masked mask (CStr (isoformat (now_at (ticks st.2))))
            (default (replicate (nrows st.1) CNaN) (data st.1 !! ts_col c))).
Proof.
  unfold mark_column. cbn [fst snd].
  rewrite loc_set_lookup. do 2 f_equal.
  rewrite loc_set_lookup_ne by (pose proof (ts_col_neq c); congruence).
  case_match; [done|].
  rewrite setitem_lookup_ne by (pose proof (ts_col_neq c); congruence).
  done.
Qed.

Lemma mark_loop_nrows cats st :
  nrows (fold_left step cats st).1 = nrows st.1.
Proof.
  revert st. induction cats as [|c l IH]; intros st; simpl; [done|].
  by rewrite IH, mark_column_nrows.
Qed.

Lemma mark_loop_world cats st :
  ticks (fold_left step cats st).2 = ticks st.2 + length cats
  ∧ disk (fold_left step cats st).2 = disk st.2.
Proof.
  revert st. induction cats as [|c l IH]; intros st; simpl; [split; [lia|done]|].
  destruct (IH (step st c)) as [-> ->]. simpl. split; [lia|done].
Qed.

(** A column that is the timestamp column of no requested category: it is
    left alone when it is not requested, and otherwise created if need be
    and set in the masked rows. *)
Lemma mark_loop_flag cats st k :
  k ∉ (ts_col <$> cats) →
  data (fold_left step cats st).1 !! k
  = if bool_decide (k ∈ cats)
    then Some (set_masked mask (CBool true)
                 (default (replicate (nrows st.1) (CBool false)) (data st.1 !! k)))
    else data st.1 !! k.
Proof.
  revert st. induction cats as [|c l IH]; intros st Hts; simpl; [done|].
  rewrite fmap_cons, not_elem_of_cons in Hts. destruct Hts as [Hne Hts].
  rewrite IH by done. rewrite mark_column_nrows.
  destruct (decide (k = c)) as [->|Hkc].
  - rewrite mark_column_flag. simpl.
    rewrite (bool_decide_eq_true_2 (c ∈ c :: l)) by (apply elem_of_cons; by left).
    case_bool_decide; [|done]. by rewrite set_masked_absorb.
  - rewrite mark_column_other by done.
    rewrite (bool_decide_ext (k ∈ c :: l) (k ∈ l)); [done|].
    rewrite elem_of_cons. split; [by intros [?|?]|by right].
Qed.

(** The timestamp column of a requested category, when it is not requested
    as a category itself: it holds, in the masked rows, one of the readings
    of the clock made by the loop. *)
Lemma mark_loop_ts cats st k :
  k ∉ cats → k ∈ (ts_col <$> cats) →
  ∃ j, ticks st.2 ≤ j < ticks st.2 + length cats
       ∧ data (fold_left step cats st).1 !! k
         = Some (set_masked mask (CStr (isoformat (now_at j)))
                   (default (replicate (nrows st.1) CNaN) (data st.1 !! k))).
Proof.
  revert st. induction cats as [|c l IH]; intros st Hk Hts; simpl.
  - by apply elem_of_nil in Hts.
  - rewrite not_elem_of_cons in Hk. destruct Hk as [Hkc Hk].
    destruct (decide (k ∈ (ts_col <$> l))) as [Hl|Hl].
    + destruct (IH (step st c) Hk Hl) as (j & Hj & ->).
      rewrite mark_column_nrows. simpl in Hj.
      exists j. split; [lia|]. f_equal.
      destruct (decide (k = ts_col c)) as [->|Hne].
      * rewrite mark_column_ts. simpl. apply set_masked_absorb.
      * by rewrite mark_column_other.
    + rewrite fmap_cons, elem_of_cons in Hts. destruct Hts as [->|?]; [|done].
      exists (ticks st.2). split; [lia|].
      rewrite mark_loop_flag by done.
      rewrite (bool_decide_eq_false_2 _ Hk). apply mark_column_ts.
Qed.

End MarkLoop.

(** ** Well-formed frames *)

Lemma wf_lookup df c col : wf df → data df !! c = Some col → length col = nrows df.
Proof. intros Hwf Hc. exact (Hwf c col Hc). Qed.

Lemma wf_setitem df c v : wf df → wf (setitem df c v).
Proof.
  intros Hwf k col. simpl. rewrite lookup_insert.
  case_decide; [|apply Hwf]. intros [= <-]. apply length_replicate.
Qed.

Lemma wf_default df c v : wf df →
  length (default (replicate (nrows df) v) (data df !! c)) = nrows df.
Proof.
  intros Hwf. destruct (data df !! c) as [col|] eqn:Hc; simpl.
  - by apply (wf_lookup df c).
  - apply length_replicate.
Qed.

Lemma wf_loc_set df mask c v :
  wf df → length mask = nrows df → wf (loc_set df mask c v).
Proof.
  intros Hwf Hm k col. simpl. rewrite lookup_insert.
  case_decide; [|apply Hwf]. intros [= <-].
  rewrite set_masked_length; rewrite wf_default; done.
Qed.

Lemma wf_mark_column now_at mask st c :
  wf st.1 → length mask = nrows st.1 → wf (mark_column now_at mask st c).1.
Proof.
  intros Hwf Hm. unfold mark_column. cbn [fst snd].
  apply wf_loc_set; [apply wf_loc_set|]; try (case_match; done).
  case_match; [done|]. by apply wf_setitem.
Qed.

Lemma wf_mark_loop now_at mask cats st :
  wf st.1 → length mask = nrows st.1 →
  wf (fold_left (mark_column now_at mask) cats st).1.
Proof.
  revert st. induction cats as [|c l IH]; intros st Hwf Hm; simpl; [done|].
  apply IH; [by apply wf_mark_column|by rewrite mark_column_nrows].
Qed.

(** ** The mask *)

Lemma key_mask_lookup df k identifier i :
  key_mask df k identifier !! i
  = (λ x, bool_decide (py_str x = identifier))
      <$> (df_get df k (replicate (nrows df) CNone) !! i).
Proof.
  unfold key_mask, eq_scalar, fillna, astype_str.
  rewrite !list_lookup_fmap. by destruct (_ !! i).
Qed.

Lemma key_mask_length df k identifier :
  wf df → length (key_mask df k identifier) = nrows df.
Proof.
  intros Hwf. unfold key_mask, eq_scalar, fillna, astype_str.
  rewrite !length_fmap. by apply wf_default.
Qed.

Lemma id_mask_length df identifier :
  wf df → length (id_mask df identifier) = nrows df.
Proof.
  intros Hwf. unfold id_mask, series_or.
  rewrite !length_zip_with, !key_mask_length by done. lia.
Qed.

Lemma id_mask_lookup df identifier i :
  id_mask df identifier !! i
  = (b1 ← key_mask df "Srn" identifier !! i;
     b2 ← key_mask df "Email" identifier !! i;
     b3 ← key_mask df "Name" identifier !! i;
     Some (b1 || b2 || b3)).
Proof.
  unfold id_mask, series_or. rewrite !lookup_zip_with.
  by destruct (key_mask df "Srn" identifier !! i),
              (key_mask df "Email" identifier !! i).
Qed.

(** The mask of a row depends on the cells of the lookup columns only. *)
Lemma id_mask_ext df df' identifier i :
  (∀ k, k ∈ id_columns →
        df_get df' k (replicate (nrows df') CNone) !! i
        = df_get df k (replicate (nrows df) CNone) !! i) →
  id_mask df' identifier !! i = id_mask df identifier !! i.
Proof.
  intros H. rewrite !id_mask_lookup, !key_mask_lookup.
  rewrite !H; [done|unfold id_columns; set_solver..].
Qed.

Lemma series_any_true m : series_any m = true ↔ ∃ i, m !! i = Some true.
Proof.
  unfold series_any. induction m as [|b m IH]; simpl.
  - split; [done|]. by intros [i ?].
  - rewrite orb_true_iff, IH. split.
    + intros [->|[i Hi]]; [by exists 0|by exists (S i)].
    + intros [[|i] Hi]; simpl in Hi; [left; congruence|right; eauto].
Qed.

(** No lookup column is the timestamp column of a category. *)
Lemma id_columns_not_ts k c : k ∈ id_columns → k ≠ ts_col c.
Proof.
  unfold id_columns, ts_col. intros Hk Heq.
  repeat (apply elem_of_cons in Hk as [->|Hk]);
    [..|by apply elem_of_nil in Hk];
    repeat (destruct c as [|? c]; simpl in Heq; [discriminate|];
            injection Heq as _ Heq);
    destruct c; discriminate.
Qed.

(** ** The result of [mark_attendance] *)

Section Marking.

Variable now_at : nat → datetime.
Variable csv_error : string → DataFrame → option string.

Local Abbreviation mark := (mark_attendance now_at csv_error).

Lemma mark_no_match df identifier cats sp w :
  series_any (id_mask df identifier) = false →
  mark df identifier cats sp w
  = (df, w, (false, "No matching row found for id '" +:+ identifier +:+ "'")).
Proof. intros H. unfold mark_attendance. by rewrite H. Qed.

(** After a match the frame is the one the loop leaves, whatever happens
    to the file, and the call reports success. *)
Lemma mark_match df identifier cats sp w :
  series_any (id_mask df identifier) = true →
  (mark df identifier cats sp w).1.1
  = (fold_left (mark_column now_at (id_mask df identifier)) cats (df, w)).1
  ∧ (mark df identifier cats sp w).2.1 = true.
Proof.
  intros H. unfold mark_attendance. rewrite H. simpl.
  destruct sp as [path|]; [|done].
  destruct (truthy path); [|done].
  by destruct (to_csv _ _ _ _).1.
Qed.

End Marking.

(** ** Timestamps *)

Lemma is_digit_digit n : is_digit (digit n) = true.
Proof.
  unfold is_digit, digit.
  assert (n mod 10 < 10)%N as H by (apply N.mod_upper_bound; discriminate).
  revert H. generalize (n mod 10)%N. intros m H.
  rewrite N_ascii_embedding by lia.
  apply andb_true_iff. split; apply N.leb_le; lia.
Qed.

Lemma isoformat_iso8601 d : is_iso8601 (isoformat d) = true.
Proof.
  unfold isoformat.
  destruct (N.eqb (microsecond d) 0);
    lazy beta iota delta [zfill String.append is_iso8601 forallb];
    rewrite !is_digit_digit; reflexivity.
Qed.

Lemma isoformat_nonempty d : isoformat d ≠ "".
Proof. intros H. pose proof (isoformat_iso8601 d) as Hd. by rewrite H in Hd. Qed.

(** ** Marked rows *)

Lemma requested_not_ts cats c :
  Forall (λ c, ts_col c ∉ cats) cats → c ∈ cats → c ∉ (ts_col <$> cats).
Proof.
  rewrite Forall_forall. intros H Hc (c' & -> & Hc')%list_elem_of_fmap.
  by apply (H c').
Qed.

Lemma masked_row_lt df identifier i b :
  wf df → id_mask df identifier !! i = Some b → i < nrows df.
Proof.
  intros Hwf Hi. rewrite <- (id_mask_length df identifier Hwf).
  apply lookup_lt_is_Some. eauto.
Qed.

Section Marked.

Variable now_at : nat → datetime.
Variable csv_error : string → DataFrame → option string.

Local Abbreviation mark := (mark_attendance now_at csv_error).

(** A requested column that is no timestamp column of a requested
    category holds, after a match, the old cell (or [False] when the
    column is new) in the rows outside the mask and [True] in the others. *)
Lemma marked_column df identifier cats sp w c :
  series_any (id_mask df identifier) = true →
  c ∈ cats → c ∉ (ts_col <$> cats) →
  data (mark df identifier cats sp w).1.1 !! c
  = Some (set_masked (id_mask df identifier) (CBool true)
            (default (replicate (nrows df) (CBool false)) (data df !! c))).
Proof.
  intros Hany Hc Hts.
  destruct (mark_match now_at csv_error df identifier cats sp w Hany) as [-> _].
  rewrite mark_loop_flag by done. by rewrite bool_decide_eq_true_2.
Qed.

Lemma marked_flag df identifier cats sp w c i :
  wf df → id_mask df identifier !! i = Some true →
  c ∈ cats → c ∉ (ts_col <$> cats) →
  cell (mark df identifier cats sp w).1.1 c i = Some (CBool true).
Proof.
  intros Hwf Hi Hc Hts.
  assert (series_any (id_mask df identifier) = true) as Hany
    by (apply series_any_true; eauto).
  unfold cell. rewrite marked_column by done. simpl.
  apply set_masked_lookup_true; [done|].
  rewrite wf_default by done. by eapply masked_row_lt.
Qed.

Lemma marked_ts df identifier cats sp w c i :
  wf df → id_mask df identifier !! i = Some true →
  c ∈ cats → ts_col c ∉ cats →
  ∃ j, ticks w ≤ j < ticks w + length cats
       ∧ cell (mark df identifier cats sp w).1.1 (ts_col c) i
         = Some (CStr (isoformat (now_at j))).
Proof.
  intros Hwf Hi Hc Hts.
  assert (series_any (id_mask df identifier) = true) as Hany
    by (apply series_any_true; eauto).
  destruct (mark_match now_at csv_error df identifier cats sp w Hany) as [Hdf _].
  destruct (mark_loop_ts now_at (id_mask df identifier) cats (df, w) (ts_col c))
    as (j & Hj & Hcol); [done|by apply list_elem_of_fmap_2|].
  exists j. split; [done|].
  unfold cell. rewrite Hdf, Hcol. simpl.
  apply set_masked_lookup_true; [done|].
  rewrite wf_default by done. by eapply masked_row_lt.
Qed.

End Marked.

(** * The claims *)

(** A lookup column that the roster does not have is compared as a column
    of the text [None]: [astype(str)] has turned the missing cells into that
    text before [fillna("")] runs. *)
Lemma key_mask_absent df k identifier :
  data df !! k = None →
  key_mask df k identifier
  = replicate (nrows df) (bool_decide ("None" = identifier)).
Proof.
  intros Hk. unfold key_mask, df_get, eq_scalar, fillna, astype_str.
  rewrite Hk. simpl. by rewrite !fmap_replicate.
Qed.

(** A record of a well-formed roster is matched exactly when the identifier
    is the text compared for [Srn], [Email] or [Name]. *)
Lemma id_mask_spec df identifier i :
  wf df → i < nrows df →
  id_mask df identifier !! i
  = Some (bool_decide (lookup_text df "Srn" i = identifier)
          || bool_decide (lookup_text df "Email" i = identifier)
          || bool_decide (lookup_text df "Name" i = identifier)).
Proof.
  intros Hwf Hi.
  assert (∀ k, key_mask df k identifier !! i
               = Some (bool_decide (lookup_text df k i = identifier))) as Hk.
  { intros k. rewrite key_mask_lookup. unfold lookup_text, cell, df_get.
    destruct (data df !! k) as [col|] eqn:Hcol; simpl.
    - destruct (lookup_lt_is_Some_2 col i) as [x Hx].
      { by rewrite (wf_lookup df k col). }
      by rewrite Hx.
    - by rewrite lookup_replicate_2. }
  by rewrite id_mask_lookup, !Hk.
Qed.

(** C1.  On a roster without [Srn] and [Email] columns the absent columns do
    not compare equal to the empty identifier, which finds no row, and they
    do compare equal to the identifier [None], for which every record is
    marked. *)
Theorem absent_column_compares_as_None :
  key_mask roster_names "Srn" "" = [false; false]
  ∧ (mark_attendance clock0 csv_ok roster_names "" ["Dinner"] None world0).2
    = (false, "No matching row found for id ''")
  ∧ id_mask roster_names "None" = [true; true]
  ∧ (mark_attendance clock0 csv_ok roster_names "None" ["Dinner"] None world0).2
    = (true, "Marked")
  ∧ data (mark_attendance clock0 csv_ok roster_names "None" ["Dinner"] None
            world0).1.1 !! "Dinner"
    = Some [CBool true; CBool true].
Proof. vm_compute. done. Qed.

(** C2.  When no record matches the identifier, [mark_attendance] returns
    the failure [No matching row found for id '<identifier>'], and the
    roster, the clock and the files on disk are as they were. *)
Theorem mark_attendance_no_match now_at csv_error df identifier cats sp w :
  series_any (id_mask df identifier) = false →
  mark_attendance now_at csv_error df identifier cats sp w
  = (df, w, (false, "No matching row found for id '" +:+ identifier +:+ "'")).
Proof. apply mark_no_match. Qed.

Lemma mark_attendance_no_match_witness :
  mark_attendance clock0 csv_ok roster_alice "nobody" ["Dinner"]
                  (Some "teams.csv") world0
  = (roster_alice, world0, (false, "No matching row found for id 'nobody'")).
Proof.
  apply (mark_attendance_no_match clock0 csv_ok roster_alice "nobody").
  vm_compute. reflexivity.
Defined.

(** C3, as stated, fails when a timestamp column is requested as a category
    next to its own category: marking [Dinner_ts] after [Dinner] leaves
    [True], not a timestamp, in [Dinner_ts]. *)
Lemma mark_attendance_marks_cex :
  let cats := ["Dinner"; "Dinner_ts"] in
  let r := mark_attendance clock0 csv_ok roster_alice "a@x.com" cats None world0 in
  series_any (id_mask roster_alice "a@x.com") = true
  ∧ ¬ (∀ i c, id_mask roster_alice "a@x.com" !! i = Some true → c ∈ cats →
         cell r.1.1 c i = Some (CBool true)
         ∧ ∃ t, cell r.1.1 (ts_col c) i = Some (CStr t) ∧ t ≠ "").
Proof.
  intros cats r. split; [by vm_compute|]. intros H.
  destruct (H 0 "Dinner") as [_ (t & Ht & _)].
  - by vm_compute.
  - apply elem_of_cons. by left.
  - vm_compute in Ht. discriminate.
Qed.

(** C3, amended.  When a record matches and no requested category is the
    timestamp column of a requested category, [mark_attendance] returns
    success, and in every matched record every requested category is [True]
    and its timestamp column holds the ISO-8601 text of a reading of the
    clock made during the call, which is not empty. *)
Theorem mark_attendance_marks now_at csv_error df identifier cats sp w :
  wf df →
  series_any (id_mask df identifier) = true →
  Forall (λ c, ts_col c ∉ cats) cats →
  let r := mark_attendance now_at csv_error df identifier cats sp w in
  r.2.1 = true
  ∧ ∀ i c, id_mask df identifier !! i = Some true → c ∈ cats →
      cell r.1.1 c i = Some (CBool true)
      ∧ ∃ j, ticks w ≤ j < ticks w + length cats
             ∧ cell r.1.1 (ts_col c) i = Some (CStr (isoformat (now_at j)))
             ∧ is_iso8601 (isoformat (now_at j)) = true
             ∧ isoformat (now_at j) ≠ "".
Proof.
  intros Hwf Hany Hcats r. split.
  - by destruct (mark_match now_at csv_error df identifier cats sp w Hany).
  - intros i c Hi Hc. split.
    + apply marked_flag; [done..|]. by apply requested_not_ts.
    + destruct (marked_ts now_at csv_error df identifier cats sp w c i)
        as (j & Hj & Hcell); [done..| |].
      { rewrite Forall_forall in Hcats. by apply Hcats. }
      exists j. repeat split; [lia|lia|done| |].
      * apply isoformat_iso8601.
      * apply isoformat_nonempty.
Qed.

Lemma mark_attendance_marks_witness :
  let r := mark_attendance clock0 csv_ok roster_alice "a@x.com" ["Dinner"]
                           None world0 in
  r.2.1 = true
  ∧ ∀ i c, id_mask roster_alice "a@x.com" !! i = Some true → c ∈ ["Dinner"] →
      cell r.1.1 c i = Some (CBool true)
      ∧ ∃ j, ticks world0 ≤ j < ticks world0 + length ["Dinner"]
             ∧ cell r.1.1 (ts_col c) i = Some (CStr (isoformat (clock0 j)))
             ∧ is_iso8601 (isoformat (clock0 j)) = true
             ∧ isoformat (clock0 j) ≠ "".
Proof.
  apply (mark_attendance_marks clock0 csv_ok roster_alice "a@x.com" ["Dinner"]
                               None world0).
  - by_compute.
  - vm_compute. reflexivity.
  - by_compute.
Defined.

(** C4, as stated, fails for the same reason: with [Dinner] requested after
    [Dinner_ts], both records that share the empty e-mail address end with a
    timestamp, not [True], in the requested category [Dinner_ts]. *)
Lemma mark_attendance_every_match_cex :
  let cats := ["Dinner_ts"; "Dinner"] in
  let r := mark_attendance clock0 csv_ok roster_blank "" cats None world0 in
  id_mask roster_blank "" = [true; true]
  ∧ ¬ (∀ i c, id_mask roster_blank "" !! i = Some true → c ∈ cats →
         cell r.1.1 c i = Some (CBool true)).
Proof.
  intros cats r. split; [by vm_compute|]. intros H.
  specialize (H 0 "Dinner_ts").
  assert (cell r.1.1 "Dinner_ts" 0 = Some (CBool true)) as Hc.
  { apply H; [by vm_compute|]. apply elem_of_cons. by left. }
  vm_compute in Hc. discriminate.
Qed.

(** C4, amended.  When no requested category is the timestamp column of a
    requested category, all the records that match the identifier are
    marked, not only the first: any two of them have every requested
    category [True] after the call. *)
Theorem mark_attendance_every_match now_at csv_error df identifier cats sp w i j :
  wf df →
  Forall (λ c, ts_col c ∉ cats) cats →
  i ≠ j →
  id_mask df identifier !! i = Some true →
  id_mask df identifier !! j = Some true →
  let r := mark_attendance now_at csv_error df identifier cats sp w in
  ∀ c, c ∈ cats →
    cell r.1.1 c i = Some (CBool true) ∧ cell r.1.1 c j = Some (CBool true).
Proof.
  intros Hwf Hcats _ Hi Hj r c Hc.
  split; apply marked_flag; try done; by apply requested_not_ts.
Qed.

Lemma mark_attendance_every_match_witness :
  let r := mark_attendance clock0 csv_ok roster_blank "" ["Pizza"] None world0 in
  cell r.1.1 "Pizza" 0 = Some (CBool true)
  ∧ cell r.1.1 "Pizza" 1 = Some (CBool true).
Proof.
  apply (mark_attendance_every_match clock0 csv_ok roster_blank "" ["Pizza"]
                                     None world0 0 1).
  - by_compute.
  - by_compute.
  - lia.
  - vm_compute. reflexivity.
  - vm_compute. reflexivity.
  - by_compute.
Defined.

(** C5, as stated, fails when a requested category is a lookup column that
    the roster lacks: the first call creates [Srn] with [False] in the record
    it does not match, and the second call matches that record through the
    text [False] and marks it. *)
Lemma mark_attendance_idempotent_cex :
  let r1 := mark_attendance clock0 csv_ok roster_false "False" ["Srn"] None world0 in
  let r2 := mark_attendance clock0 csv_ok r1.1.1 "False" ["Srn"] None r1.1.2 in
  ("Srn" ∉ (ts_col <$> ["Srn"]))
  ∧ data r1.1.1 !! "Srn" = Some [CBool true; CBool false]
  ∧ data r2.1.1 !! "Srn" = Some [CBool true; CBool true]
  ∧ data r2.1.1 !! "Srn" ≠ data r1.1.1 !! "Srn".
Proof.
  intros r1 r2. split; [by_compute|]. by vm_compute.
Qed.

(** The rows a second call matches are among those the first call matched,
    when every lookup column that is requested as a category is a column of
    the roster. *)
Lemma second_mask_below now_at df identifier cats w i :
  wf df →
  Forall (λ k, k ∈ cats → is_Some (data df !! k)) id_columns →
  let df1 := (fold_left (mark_column now_at (id_mask df identifier)) cats (df, w)).1 in
  id_mask df1 identifier !! i = Some true →
  id_mask df identifier !! i = Some true.
Proof.
  intros Hwf Hid df1 H2. rewrite Forall_forall in Hid.
  assert (wf df1) as Hwf1 by (apply wf_mark_loop; [done|by apply id_mask_length]).
  assert (nrows df1 = nrows df) as Hn by apply mark_loop_nrows.
  destruct (id_mask df identifier !! i) as [[]|] eqn:E1; [done| |].
  - rewrite <- H2, <- E1. symmetry. apply id_mask_ext. intros k Hk.
    unfold df_get. rewrite Hn. subst df1.
    rewrite mark_loop_flag.
    2:{ intros (c & -> & _)%list_elem_of_fmap. by eapply id_columns_not_ts. }
    case_bool_decide as Hkc; [|done].
    destruct (Hid k Hk Hkc) as [col Hcol]. simpl. rewrite Hcol. simpl.
    by apply set_masked_lookup_false.
  - apply lookup_ge_None in E1. rewrite id_mask_length in E1 by done.
    apply masked_row_lt in H2; [lia|done].
Qed.

(** C5, amended.  When every lookup column ([Srn], [Email], [Name]) that is
    requested as a category is a column of the roster, a second call with the
    same identifier and categories leaves every column other than the
    timestamp columns of the requested categories as the first call left it. *)
Theorem mark_attendance_idempotent now_at csv_error df identifier cats sp w :
  wf df →
  Forall (λ k, k ∈ cats → is_Some (data df !! k)) id_columns →
  let r1 := mark_attendance now_at csv_error df identifier cats sp w in
  let r2 := mark_attendance now_at csv_error r1.1.1 identifier cats sp r1.1.2 in
  nrows r2.1.1 = nrows r1.1.1
  ∧ ∀ k, k ∉ (ts_col <$> cats) → data r2.1.1 !! k = data r1.1.1 !! k.
Proof.
  intros Hwf Hid r1 r2. subst r2.
  destruct (series_any (id_mask df identifier)) eqn:Hany.
  2:{ subst r1. rewrite (mark_no_match _ _ _ _ _ _ _ Hany). simpl.
      by rewrite (mark_no_match _ _ _ _ _ _ _ Hany). }
  destruct (mark_match now_at csv_error df identifier cats sp w Hany) as [Hdf _].
  fold r1 in Hdf. rewrite Hdf. clear Hdf. generalize (r1.1.2). intros w1.
  set (mask1 := id_mask df identifier).
  set (df1 := (fold_left (mark_column now_at mask1) cats (df, w)).1).
  assert (wf df1) as Hwf1 by (apply wf_mark_loop; [done|by apply id_mask_length]).
  destruct (series_any (id_mask df1 identifier)) eqn:Hany2.
  2:{ by rewrite (mark_no_match _ _ _ _ _ _ _ Hany2). }
  destruct (mark_match now_at csv_error df1 identifier cats sp w1 Hany2) as [-> _].
  split; [apply mark_loop_nrows|].
  intros k Hk. rewrite mark_loop_flag by done.
  case_bool_decide as Hkc; [|done].
  cbn [fst snd]. subst df1. rewrite mark_loop_nrows.
  rewrite mark_loop_flag by done.
  rewrite bool_decide_eq_true_2 by done. cbn [fst snd default]. f_equal.
  apply set_masked_below.
  - subst mask1. by rewrite id_mask_length, wf_default.
  - rewrite id_mask_length by done.
    rewrite mark_loop_nrows. cbn [fst]. by rewrite wf_default.
  - intros i. by apply second_mask_below.
Qed.

Lemma mark_attendance_idempotent_witness :
  let r1 := mark_attendance clock0 csv_ok roster_alice "1" ["Dinner"; "Name"]
                            None world0 in
  let r2 := mark_attendance clock0 csv_ok r1.1.1 "1" ["Dinner"; "Name"]
                            None r1.1.2 in
  nrows r2.1.1 = nrows r1.1.1
  ∧ ∀ k, k ∉ (ts_col <$> ["Dinner"; "Name"]) →
      data r2.1.1 !! k = data r1.1.1 !! k.
Proof.
  apply (mark_attendance_idempotent clock0 csv_ok roster_alice "1"
                                    ["Dinner"; "Name"] None world0).
  - by_compute.
  - by_compute.
Defined.

(** C6.  When records were matched and writing the roster back to its
    source path raises, the call still returns success, with the marked frame
    that the call without a source path leaves, and its message carries the
    text of the exception next to [Marked]. *)
Theorem mark_attendance_write_failure now_at csv_error df identifier cats path w e :
  series_any (id_mask df identifier) = true →
  truthy path = true →
  let r0 := mark_attendance now_at csv_error df identifier cats None w in
  csv_error path r0.1.1 = Some e →
  r0.2 = (true, "Marked")
  ∧ mark_attendance now_at csv_error df identifier cats (Some path) w
    = (r0.1.1, r0.1.2,
       (true, "Marked (but failed to write to source CSV: " +:+ e +:+ ")")).
Proof.
  intros Hany Hpath r0. subst r0. unfold mark_attendance. rewrite Hany, Hpath.
  cbn [negb fst snd]. intros He. split; [done|].
  unfold to_csv. rewrite He. simpl. by destruct (fold_left _ _ _).
Qed.

Lemma mark_attendance_write_failure_witness :
  mark_attendance clock0 csv_denied roster_alice "Alice" ["Dinner"]
                  (Some "teams.csv") world0
  = ((mark_attendance clock0 csv_denied roster_alice "Alice" ["Dinner"] None
                      world0).1,
     (true,
      "Marked (but failed to write to source CSV: [Errno 13] Permission denied)")).
Proof.
  destruct (mark_attendance_write_failure clock0 csv_denied roster_alice "Alice"
              ["Dinner"] "teams.csv" world0 "[Errno 13] Permission denied")
    as (_ & ->).
  - vm_compute. reflexivity.
  - vm_compute. reflexivity.
  - vm_compute. reflexivity.
  - reflexivity.
Defined.

(** C9.  [ensure_attendance_columns] keeps the number of records and every
    column the roster had, with its cells; after it each of [Dinner],
    [Pizza], [Breakfast] and [MRD] is a column and so is its timestamp
    column; an attendance column that was missing is [False] in every
    record, and a timestamp column that was missing is the empty text in
    every record. *)
Theorem ensure_attendance_columns_spec df :
  let df' := ensure_attendance_columns df in
  nrows df' = nrows df
  ∧ (∀ k col, data df !! k = Some col → data df' !! k = Some col)
  ∧ ∀ c, c ∈ DEFAULT_COLUMNS →
      is_Some (data df' !! c)
      ∧ is_Some (data df' !! ts_col c)
      ∧ (data df !! c = None →
         data df' !! c = Some (replicate (nrows df) (CBool false)))
      ∧ (data df !! ts_col c = None →
         data df' !! ts_col c = Some (replicate (nrows df) (CStr ""))).
Proof.
  intros df'. subst df'. unfold ensure_attendance_columns.
  split; [apply ensure_loop_nrows|].
  split; [intros k col; apply ensure_loop_preserves|].
  intros c Hc.
  pose proof DEFAULT_COLUMNS_apart as Hap. rewrite Forall_forall in Hap.
  destruct (Hap c Hc) as [H1 H2].
  destruct (ensure_loop_has DEFAULT_COLUMNS df c Hc) as [Hf Ht].
  repeat split; [done|done| |].
  - by apply ensure_loop_flag.
  - by apply ensure_loop_ts.
Qed.

Lemma ensure_attendance_columns_spec_witness :
  data (ensure_attendance_columns roster_alice) !! "Dinner" = Some [CBool false]
  ∧ data (ensure_attendance_columns roster_alice) !! "Pizza" = Some [CBool false]
  ∧ data (ensure_attendance_columns roster_alice) !! "Pizza_ts" = Some [CStr ""].
Proof.
  destruct (ensure_attendance_columns_spec roster_alice) as (_ & Hold & Hnew).
  destruct (Hnew "Pizza") as (_ & _ & Hf & Ht).
  { apply elem_of_cons. right. apply elem_of_cons. by left. }
  split; [|split].
  - apply Hold. vm_compute. reflexivity.
  - apply Hf. vm_compute. reflexivity.
  - apply Ht. vm_compute. reflexivity.
Defined.

(** C10, as stated, fails when the absent category is the timestamp column of
    a category requested before it: the timestamp assignment has created
    [Late_ts] with [NaN] outside the matched records, so it is not created
    anew, and the record that does not match keeps [NaN]. *)
Lemma mark_attendance_creates_column_cex :
  let cats := ["Late"; "Late_ts"] in
  let r := mark_attendance clock0 csv_ok roster_names "Alice" cats None world0 in
  "Late_ts" ∈ cats
  ∧ data roster_names !! "Late_ts" = None
  ∧ id_mask roster_names "Alice" = [true; false]
  ∧ cell r.1.1 "Late_ts" 1 = Some CNaN
  ∧ cell r.1.1 "Late_ts" 1 ≠ Some (CBool false).
Proof.
  intros cats r. split; [by_compute|]. by vm_compute.
Qed.

(** C10, amended.  When a record matches, a requested category that is not a
    column of the roster and is not the timestamp column of a requested
    category is created with [False] in every record and then marked: the
    call succeeds, and the new column is [True] in the matched records and
    [False] in the others. *)
Theorem mark_attendance_creates_column now_at csv_error df identifier cats sp w c :
  wf df →
  series_any (id_mask df identifier) = true →
  c ∈ cats →
  data df !! c = None →
  c ∉ (ts_col <$> cats) →
  let r := mark_attendance now_at csv_error df identifier cats sp w in
  r.2.1 = true
  ∧ data r.1.1 !! c
    = Some (set_masked (id_mask df identifier) (CBool true)
              (replicate (nrows df) (CBool false)))
  ∧ ∀ i b, id_mask df identifier !! i = Some b → cell r.1.1 c i = Some (CBool b).
Proof.
  intros Hwf Hany Hc Hnew Hts r.
  assert (data r.1.1 !! c
          = Some (set_masked (id_mask df identifier) (CBool true)
                    (replicate (nrows df) (CBool false)))) as Hcol.
  { subst r. rewrite marked_column by done. by rewrite Hnew. }
  split; [|split; [done|]].
  - by destruct (mark_match now_at csv_error df identifier cats sp w Hany).
  - intros i b Hi. unfold cell. rewrite Hcol. simpl.
    pose proof (masked_row_lt df identifier i b Hwf Hi) as Hlt.
    destruct b.
    + apply set_masked_lookup_true; [done|]. by rewrite length_replicate.
    + rewrite set_masked_lookup_false by done. by apply lookup_replicate_2.
Qed.

Lemma mark_attendance_creates_column_witness :
  let r := mark_attendance clock0 csv_ok roster_names "Alice" ["Late"] None
                           world0 in
  r.2.1 = true
  ∧ data r.1.1 !! "Late"
    = Some (set_masked (id_mask roster_names "Alice") (CBool true)
              (replicate (nrows roster_names) (CBool false)))
  ∧ ∀ i b, id_mask roster_names "Alice" !! i = Some b →
           cell r.1.1 "Late" i = Some (CBool b).
Proof.
  apply (mark_attendance_creates_column clock0 csv_ok roster_names "Alice"
                                        ["Late"] None world0 "Late").
  - by_compute.
  - vm_compute. reflexivity.
  - by_compute.
  - vm_compute. reflexivity.
  - by_compute.
Defined.

(** ** The decoder *)

(** Without pyzbar no exception leaves [decode_qr_from_bytes]. *)
Lemma decode_without_pyzbar {CvImage PilImage} (L : @Codec.libs CvImage PilImage) b :
  Codec.import_pyzbar L = None →
  ∃ r, Codec.decode_qr_from_bytes L b = Codec.Returns r.
Proof.
  intros H. unfold Codec.decode_qr_from_bytes. rewrite H.
  destruct (_ ≫= _); eauto.
Qed.

(** With pyzbar, an exception of [Image.open] leaves the function whenever
    the OpenCV attempt has produced no text. *)
Lemma decode_raises {CvImage PilImage} (L : @Codec.libs CvImage PilImage) b dec e :
  Codec.import_cv2 L ≫= (λ cv2, Codec.cv2_attempt cv2 b) = None →
  Codec.import_pyzbar L = Some dec →
  Codec.Image_open L b = Codec.Raises e →
  Codec.decode_qr_from_bytes L b = Codec.Raises e.
Proof.
  intros H1 H2 H3. unfold Codec.decode_qr_from_bytes. by rewrite H1, H2, H3.
Qed.

(** C7.  On a host with OpenCV and pyzbar, bytes that are not an image make
    [decode_qr_from_bytes] raise the exception of [Image.open] instead of
    returning [None]; the same bytes give [None] when pyzbar is missing. *)
Theorem decode_qr_from_bytes_raises :
  Codec.decode_qr_from_bytes Codec.both_decoders Codec.not_an_image
  = Codec.Raises "cannot identify image file"
  ∧ Codec.decode_qr_from_bytes Codec.opencv_only Codec.not_an_image
    = Codec.Returns None.
Proof. split; reflexivity. Qed.


(** * Further properties *)

(** ** File names *)

Lemma all_chars_impl p q s :
  (∀ a, p a = true → q a = true) → all_chars p s = true → all_chars q s = true.
Proof.
  intros Hpq. induction s as [|a s IH]; simpl; [done|].
  rewrite !andb_true_iff. intros [Ha Hs]. auto.
Qed.


Lemma remove_chars_all cls s :
  all_chars (λ a, negb (cls a)) (remove_chars cls s) = true.
Proof.
  induction s as [|a s IH]; simpl; [done|].
  destruct (cls a) eqn:Ha; simpl; [done|]. by rewrite Ha, IH.
Qed.

Lemma remove_chars_keeps q cls s :
  all_chars q s = true → all_chars q (remove_chars cls s) = true.
Proof.
  induction s as [|a s IH]; simpl; [done|].
  rewrite andb_true_iff. intros [Ha Hs].
  destruct (cls a); simpl; [auto|]. by rewrite Ha, IH.
Qed.

Lemma remove_chars_id cls s :
  all_chars (λ a, negb (cls a)) s = true → remove_chars cls s = s.
Proof.
  induction s as [|a s IH]; simpl; [done|].
  rewrite andb_true_iff, negb_true_iff. intros [-> Hs]. by rewrite IH.
Qed.


Lemma collapse_space_all q b s :
  q "_"%char = true → all_chars q s = true →
  all_chars (λ a, q a && negb (is_space a)) (collapse_space b s) = true.
Proof.
  intros Hq. revert b. induction s as [|a s IH]; intros b; simpl; [done|].
  rewrite andb_true_iff. intros [Ha Hs].
  destruct (is_space a) eqn:Hsp.
  - destruct b; [by apply IH|]. simpl. rewrite Hq. by apply IH.
  - simpl. rewrite Ha, Hsp. by apply IH.
Qed.

Lemma collapse_space_id b s :
  all_chars (λ a, negb (is_space a)) s = true → collapse_space b s = s.
Proof.
  revert b. induction s as [|a s IH]; intros b; simpl; [done|].
  rewrite andb_true_iff, negb_true_iff. intros [-> Hs]. by rewrite IH.
Qed.


Lemma truthy_true s : truthy s = true ↔ s ≠ "".
Proof.
  unfold truthy. rewrite negb_true_iff. apply bool_decide_eq_false.
Qed.

Lemma sanitize_clean s : all_chars is_clean (sanitize_filename s) = true.
Proof.
  unfold sanitize_filename. destruct (truthy s); [|by vm_compute].
  apply (collapse_space_all (λ a, negb (is_forbidden a))); [by vm_compute|].
  apply remove_chars_all.
Qed.


Lemma sanitize_filename_fixed s :
  s ≠ "" → all_chars is_clean s = true → sanitize_filename s = s.
Proof.
  intros Hs Hc. unfold sanitize_filename.
  apply truthy_true in Hs. rewrite Hs.
  rewrite remove_chars_id, collapse_space_id; [done| |].
  - revert Hc. apply all_chars_impl. unfold is_clean. intros a.
    rewrite andb_true_iff. tauto.
  - revert Hc. apply all_chars_impl. unfold is_clean. intros a.
    rewrite andb_true_iff. tauto.
Qed.


(** X3.  Sanitizing twice is sanitizing once, except when the first result
    is empty (the second is then [unknown]). *)
Theorem sanitize_filename_idempotent s :
  sanitize_filename s ≠ "" →
  sanitize_filename (sanitize_filename s) = sanitize_filename s.
Proof.
  intros Hne. apply sanitize_filename_fixed; [done|].
  apply sanitize_clean.
Qed.

Lemma sanitize_filename_idempotent_witness :
  sanitize_filename (sanitize_filename "Team  A/B: x?")
  = sanitize_filename "Team  A/B: x?".
Proof.
  apply (sanitize_filename_idempotent "Team  A/B: x?"). by vm_compute.
Defined.

(** ** The manifest *)


Lemma lstrip_all q p s :
  all_chars q s = true → all_chars q (Manifest.lstrip p s) = true.
Proof.
  induction s as [|a s IH]; simpl; [done|].
  destruct (p a); [|done]. rewrite andb_true_iff. intros [_ Hs]. auto.
Qed.

Lemma rstrip_all q p s :
  all_chars q s = true → all_chars q (Manifest.rstrip p s) = true.
Proof.
  induction s as [|a s IH]; simpl; [done|].
  rewrite andb_true_iff. intros [Ha Hs]. specialize (IH Hs).
  destruct (Manifest.rstrip p s) as [|b r]; [destruct (p a)|]; simpl in *;
    rewrite ?Ha; done.
Qed.

Lemma lstrip_starts_ok p s : starts_ok p (Manifest.lstrip p s) = true.
Proof.
  induction s as [|a s IH]; simpl; [done|].
  destruct (p a) eqn:Ha; [done|]. simpl. by rewrite Ha.
Qed.

Lemma lstrip_id p s : starts_ok p s = true → Manifest.lstrip p s = s.
Proof.
  destruct s as [|a s]; simpl; [done|]. rewrite negb_true_iff. by intros ->.
Qed.

Lemma rstrip_starts_ok p s :
  starts_ok p s = true → starts_ok p (Manifest.rstrip p s) = true.
Proof.
  destruct s as [|a s]; simpl; [done|]. rewrite negb_true_iff. intros Ha.
  destruct (Manifest.rstrip p s); rewrite ?Ha; simpl; by rewrite Ha.
Qed.

Lemma rstrip_idempotent p s :
  Manifest.rstrip p (Manifest.rstrip p s) = Manifest.rstrip p s.
Proof.
  induction s as [|a s IH]; simpl; [done|].
  destruct (Manifest.rstrip p s) as [|b r] eqn:Hr.
  - destruct (p a) eqn:Ha; simpl; [done|]. by rewrite Ha.
  - change (Manifest.rstrip p (String a (String b r)))
      with (match Manifest.rstrip p (String b r) with
            | "" => if p a then "" else String a ""
            | r' => String a r'
            end).
    by rewrite IH.
Qed.

Lemma strip_idempotent p s :
  Manifest.strip p (Manifest.strip p s) = Manifest.strip p s.
Proof.
  unfold Manifest.strip.
  rewrite (lstrip_id p (Manifest.rstrip p _)).
  - apply rstrip_idempotent.
  - apply rstrip_starts_ok, lstrip_starts_ok.
Qed.

Lemma is_name_char_kept a :
  is_name_char a = true → Manifest.is_kept a = true ∧ is_space a = false.
Proof.
  destruct a as [[] [] [] [] [] [] [] []]; vm_compute; intros; by try split.
Qed.

Lemma is_kept_name_char a :
  Manifest.is_kept a = true → is_space a = false → is_name_char a = true.
Proof.
  destruct a as [[] [] [] [] [] [] [] []]; vm_compute; intros; done.
Qed.

(** A text of name characters that is not empty and has no underscore at
    either end is what the manifest's [sanitize_filename] returns for it. *)
Lemma manifest_sanitize_fixed r :
  r ≠ "" → all_chars is_name_char r = true →
  Manifest.strip (Ascii.eqb "_") r = r →
  Manifest.sanitize_filename (CStr r) = r.
Proof.
  intros Hne Hall Hstrip. unfold Manifest.sanitize_filename. simpl.
  rewrite remove_chars_id, collapse_space_id, Hstrip.
  - apply truthy_true in Hne. by rewrite Hne.
  - revert Hall. apply all_chars_impl. intros a Ha.
    apply is_name_char_kept in Ha as [_ ->]. done.
  - revert Hall. apply all_chars_impl. intros a Ha.
    apply is_name_char_kept in Ha as [-> _]. done.
Qed.

Lemma manifest_sanitize_shape x :
  Manifest.sanitize_filename x ≠ ""
  ∧ all_chars is_name_char (Manifest.sanitize_filename x) = true
  ∧ Manifest.strip (Ascii.eqb "_") (Manifest.sanitize_filename x)
    = Manifest.sanitize_filename x.
Proof.
  assert (∀ t, let s2 := Manifest.strip (Ascii.eqb "_")
                           (collapse_space false
                              (remove_chars (λ a, negb (Manifest.is_kept a)) t)) in
               let r := if truthy s2 then s2 else "unknown" in
               r ≠ "" ∧ all_chars is_name_char r = true
               ∧ Manifest.strip (Ascii.eqb "_") r = r) as H.
  { intros t s2 r. subst r. destruct (truthy s2) eqn:Ht; [|by vm_compute].
    split; [by apply truthy_true|]. split; [|apply strip_idempotent].
    apply rstrip_all, lstrip_all.
    eapply all_chars_impl;
      [|apply (collapse_space_all Manifest.is_kept); [done|]].
    - intros a [Hk Hs%negb_true_iff]%andb_true_iff. by apply is_kept_name_char.
    - eapply all_chars_impl; [|apply remove_chars_all].
      intros a. simpl. by rewrite negb_involutive. }
  destruct x; try apply H. by vm_compute.
Qed.

(** X4.  The manifest's [sanitize_filename] never returns the empty text;
    its result is made of letters, digits, underscores and hyphens and
    neither begins nor ends with an underscore. *)
Theorem manifest_sanitize_filename_shape x :
  Manifest.sanitize_filename x ≠ ""
  ∧ all_chars is_name_char (Manifest.sanitize_filename x) = true
  ∧ Manifest.strip (Ascii.eqb "_") (Manifest.sanitize_filename x)
    = Manifest.sanitize_filename x.
Proof. apply manifest_sanitize_shape. Qed.

(** X5.  The manifest's [sanitize_filename] is idempotent. *)
Theorem manifest_sanitize_filename_idempotent x :
  Manifest.sanitize_filename (CStr (Manifest.sanitize_filename x))
  = Manifest.sanitize_filename x.
Proof.
  destruct (manifest_sanitize_shape x) as (Hne & Hall & Hstrip).
  by apply manifest_sanitize_fixed.
Qed.


Lemma preferred_column_None df labels :
  Manifest.preferred_column df labels = None
  ↔ Forall (λ c, data df !! c = None) labels.
Proof.
  unfold Manifest.preferred_column. rewrite Forall_forall. split.
  - intros H c Hc. apply has_column_false.
    apply (find_none _ _ H). by apply list_elem_of_In.
  - intros H. destruct (find _ _) as [c|] eqn:Hf; [|done].
    apply find_some in Hf as [Hin Hc].
    apply list_elem_of_In in Hin. apply H in Hin.
    apply has_column_false in Hin. congruence.
Qed.

(** X6.  [create_qr_manifest.py] gives up exactly when the roster has none
    of the columns [Name], [name], [Full Name] and [FullName]. *)
Theorem manifest_needs_name_column df :
  Manifest.manifest df = None
  ↔ Forall (λ c, data df !! c = None) ["Name"; "name"; "Full Name"; "FullName"].
Proof.
  rewrite <- preferred_column_None. unfold Manifest.manifest.
  destruct (Manifest.preferred_column df ["Name"; _; _; _]); split; done.
Qed.



(** ** More on [ensure_attendance_columns] and [mark_attendance] *)

Lemma ensure_loop_id cs df :
  Forall (λ c, is_Some (data df !! c) ∧ is_Some (data df !! ts_col c)) cs →
  fold_left ensure_column cs df = df.
Proof.
  induction 1 as [|c l [Hc Ht] _ IH]; simpl; [done|].
  unfold ensure_column at 2.
  apply has_column_true in Hc, Ht. by rewrite Hc, Ht.
Qed.

(** X8.  [ensure_attendance_columns] is idempotent. *)
Theorem ensure_attendance_columns_idempotent df :
  ensure_attendance_columns (ensure_attendance_columns df)
  = ensure_attendance_columns df.
Proof.
  apply ensure_loop_id. apply Forall_forall. intros c Hc.
  by apply ensure_loop_has.
Qed.

Lemma wf_ensure_column df c : wf df → wf (ensure_column df c).
Proof.
  intros Hwf. unfold ensure_column.
  repeat case_match; repeat apply wf_setitem; done.
Qed.

Lemma wf_ensure_attendance_columns df : wf df → wf (ensure_attendance_columns df).
Proof.
  unfold ensure_attendance_columns. generalize DEFAULT_COLUMNS. intros cs.
  revert df. induction cs as [|c l IH]; intros df Hwf; simpl; [done|].
  by apply IH, wf_ensure_column.
Qed.

(** X9.  On a roster that has neither an attendance column nor its
    timestamp column, [ensure_attendance_columns] pairs them: every record
    has the flag [False] and an empty timestamp. *)
Theorem ensure_attendance_columns_pairs df c :
  c ∈ DEFAULT_COLUMNS →
  data df !! c = None →
  data df !! ts_col c = None →
  paired (ensure_attendance_columns df) c.
Proof.
  intros Hc Hf Ht.
  pose proof DEFAULT_COLUMNS_apart as Hap. rewrite Forall_forall in Hap.
  destruct (Hap c Hc) as [H1 H2].
  intros i Hi. unfold ensure_attendance_columns in *.
  rewrite ensure_loop_nrows in Hi. exists false, "".
  unfold cell. rewrite ensure_loop_flag, ensure_loop_ts by done. simpl.
  rewrite !lookup_replicate_2 by done. split; [done|]. split; [done|].
  split; [discriminate|done].
Qed.

Lemma ensure_attendance_columns_pairs_witness :
  paired (ensure_attendance_columns roster_alice) "Pizza".
Proof.
  apply (ensure_attendance_columns_pairs roster_alice "Pizza").
  - by_compute.
  - vm_compute. reflexivity.
  - vm_compute. reflexivity.
Defined.

Lemma length_append (s t : string) :
  String.length (s +:+ t) = String.length s + String.length t.
Proof.
  induction s as [|a s IH]; [done|].
  change (S (String.length (s +:+ t)) = S (String.length s + String.length t)).
  by rewrite IH.
Qed.

Lemma ts_col_inj c c' : ts_col c = ts_col c' → c = c'.
Proof.
  unfold ts_col. revert c'. induction c as [|a c IH]; intros [|a' c'] H.
  - done.
  - apply (f_equal String.length) in H. rewrite !length_append in H.
    simpl in H. lia.
  - apply (f_equal String.length) in H. rewrite !length_append in H.
    simpl in H. lia.
  - change (String a (c +:+ "_ts") = String a' (c' +:+ "_ts")) in H.
    injection H as -> H. f_equal. by apply IH.
Qed.

Section MarkMore.

Variable now_at : nat → datetime.
Variable csv_error : string → DataFrame → option string.

Local Abbreviation mark := (mark_attendance now_at csv_error).

(** The frame that [mark] returns is the roster or what the loop leaves. *)
Lemma mark_frame_cases df identifier cats sp w :
  (series_any (id_mask df identifier) = false
   ∧ (mark df identifier cats sp w).1.1 = df)
  ∨ (series_any (id_mask df identifier) = true
     ∧ (mark df identifier cats sp w).1.1
       = (fold_left (mark_column now_at (id_mask df identifier)) cats (df, w)).1).
Proof.
  destruct (series_any (id_mask df identifier)) eqn:Hany.
  - right. split; [done|].
    by destruct (mark_match now_at csv_error df identifier cats sp w Hany).
  - left. split; [done|]. by rewrite mark_no_match.
Qed.

Lemma mark_column_outside mask st c k col :
  data st.1 !! k = Some col →
  ∃ col', data (mark_column now_at mask st c).1 !! k = Some col'
          ∧ ∀ i, mask !! i = Some false → col' !! i = col !! i.
Proof.
  intros Hk.
  destruct (decide (k = c)) as [->|Hkc].
  - rewrite mark_column_flag, Hk. eexists. split; [done|].
    intros i Hi. by apply set_masked_lookup_false.
  - destruct (decide (k = ts_col c)) as [->|Hkt].
    + rewrite mark_column_ts, Hk. eexists. split; [done|].
      intros i Hi. by apply set_masked_lookup_false.
    + rewrite mark_column_other by done. eauto.
Qed.

Lemma mark_loop_outside mask cats st k col :
  data st.1 !! k = Some col →
  ∃ col', data (fold_left (mark_column now_at mask) cats st).1 !! k = Some col'
          ∧ ∀ i, mask !! i = Some false → col' !! i = col !! i.
Proof.
  revert st col. induction cats as [|c l IH]; intros st col Hk; simpl; [eauto|].
  destruct (mark_column_outside mask st c k col Hk) as (col1 & H1 & Hsame1).
  destruct (IH _ _ H1) as (col2 & H2 & Hsame2).
  exists col2. split; [done|]. intros i Hi. by rewrite Hsame2, Hsame1.
Qed.

(** X10.  A record that the identifier does not match keeps the cell of
    every column the roster had, whatever the requested categories are. *)
Theorem mark_attendance_unmatched_untouched df identifier cats sp w k col i :
  data df !! k = Some col →
  id_mask df identifier !! i = Some false →
  cell (mark df identifier cats sp w).1.1 k i = col !! i.
Proof.
  intros Hk Hi. unfold cell.
  destruct (mark_frame_cases df identifier cats sp w) as [[_ ->]|[_ ->]].
  - by rewrite Hk.
  - destruct (mark_loop_outside (id_mask df identifier) cats (df, w) k col Hk)
      as (col' & -> & Hsame).
    simpl. by apply Hsame.
Qed.

(** X11.  A column that is neither requested nor the timestamp column of a
    requested category is not touched by [mark_attendance]. *)
Theorem mark_attendance_frame df identifier cats sp w k :
  k ∉ cats → k ∉ (ts_col <$> cats) →
  data (mark df identifier cats sp w).1.1 !! k = data df !! k.
Proof.
  intros Hk Hts.
  destruct (mark_frame_cases df identifier cats sp w) as [[_ ->]|[_ ->]]; [done|].
  rewrite mark_loop_flag by done. by rewrite bool_decide_eq_false_2.
Qed.

Lemma mark_nrows df identifier cats sp w :
  nrows (mark df identifier cats sp w).1.1 = nrows df.
Proof.
  destruct (mark_frame_cases df identifier cats sp w) as [[_ ->]|[_ ->]]; [done|].
  apply mark_loop_nrows.
Qed.

(** X12.  [mark_attendance] keeps the number of records, and every column
    of the frame it leaves has one cell per record. *)
Theorem mark_attendance_keeps_shape df identifier cats sp w :
  wf df →
  nrows (mark df identifier cats sp w).1.1 = nrows df
  ∧ wf (mark df identifier cats sp w).1.1.
Proof.
  intros Hwf. split; [apply mark_nrows|].
  destruct (mark_frame_cases df identifier cats sp w) as [[_ ->]|[_ ->]]; [done|].
  apply wf_mark_loop; [done|]. by apply id_mask_length.
Qed.

(** X13.  When none of [Srn], [Email] and [Name] is requested as a category,
    marking does not change which records any identifier matches. *)
Theorem mark_attendance_keeps_matches df identifier cats sp w identifier' :
  Forall (λ k, k ∉ cats) id_columns →
  id_mask (mark df identifier cats sp w).1.1 identifier'
  = id_mask df identifier'.
Proof.
  intros Hid. rewrite Forall_forall in Hid.
  assert (∀ k, k ∈ id_columns →
               data (mark df identifier cats sp w).1.1 !! k = data df !! k) as Hk.
  { intros k Hk.
    destruct (mark_frame_cases df identifier cats sp w) as [[_ ->]|[_ ->]]; [done|].
    rewrite mark_loop_flag.
    - rewrite bool_decide_eq_false_2; [done|]. by apply Hid.
    - intros (c & -> & _)%list_elem_of_fmap. by eapply id_columns_not_ts. }
  unfold id_mask, key_mask, df_get. rewrite mark_nrows.
  rewrite !Hk; [done|unfold id_columns; set_solver..].
Qed.

(** X14.  On a roster without records [mark_attendance] always reports that
    no row matches. *)
Theorem mark_attendance_empty_roster df identifier cats sp w :
  wf df → nrows df = 0 →
  mark df identifier cats sp w
  = (df, w, (false, "No matching row found for id '" +:+ identifier +:+ "'")).
Proof.
  intros Hwf Hn. apply mark_no_match.
  pose proof (id_mask_length df identifier Hwf) as Hlen. rewrite Hn in Hlen.
  by destruct (id_mask df identifier).
Qed.

(** X15.  When records match and the write to a source path succeeds, the
    call returns [Marked], the file at that path holds exactly the frame the
    call returns, and no other file changes. *)
Theorem mark_attendance_persists df identifier cats path w :
  series_any (id_mask df identifier) = true →
  truthy path = true →
  let r0 := mark df identifier cats None w in
  csv_error path r0.1.1 = None →
  let r := mark df identifier cats (Some path) w in
  r.2 = (true, "Marked")
  ∧ r.1.1 = r0.1.1
  ∧ disk r.1.2 = <[path := r.1.1]> (disk w).
Proof.
  intros Hany Hpath r0. subst r0. unfold mark_attendance.
  rewrite Hany, Hpath. cbn [negb fst snd]. intros He.
  unfold to_csv. rewrite He. cbn [fst snd disk].
  split; [done|]. split; [done|].
  f_equal. apply mark_loop_world.
Qed.

End MarkMore.

Lemma mark_attendance_unmatched_untouched_witness :
  cell (mark_attendance clock0 csv_ok roster_names "Alice" ["Name"; "Dinner"]
                        None world0).1.1 "Name" 1
  = [CStr "Alice"; CStr "Bob"] !! 1.
Proof.
  apply (mark_attendance_unmatched_untouched clock0 csv_ok roster_names "Alice").
  - vm_compute. reflexivity.
  - vm_compute. reflexivity.
Defined.

Lemma mark_attendance_frame_witness :
  data (mark_attendance clock0 csv_ok roster_alice "Alice" ["Dinner"] None
                        world0).1.1 !! "Email"
  = data roster_alice !! "Email".
Proof.
  apply (mark_attendance_frame clock0 csv_ok roster_alice "Alice" ["Dinner"]).
  - by_compute.
  - by_compute.
Defined.

Lemma mark_attendance_keeps_shape_witness :
  nrows (mark_attendance clock0 csv_ok roster_blank "" ["Pizza"; "Late"] None
                         world0).1.1 = nrows roster_blank
  ∧ wf (mark_attendance clock0 csv_ok roster_blank "" ["Pizza"; "Late"] None
                        world0).1.1.
Proof.
  apply (mark_attendance_keeps_shape clock0 csv_ok roster_blank). by_compute.
Defined.

Lemma mark_attendance_keeps_matches_witness :
  id_mask (mark_attendance clock0 csv_ok roster_alice "Alice" ["Dinner"] None
                           world0).1.1 "a@x.com"
  = id_mask roster_alice "a@x.com".
Proof.
  apply (mark_attendance_keeps_matches clock0 csv_ok roster_alice "Alice"
                                       ["Dinner"]).
  by_compute.
Defined.

Lemma mark_attendance_empty_roster_witness :
  mark_attendance clock0 csv_ok (mkDF 0 {[ "Name" := [] ]}) "Alice" ["Dinner"]
                  None world0
  = (mkDF 0 {[ "Name" := [] ]}, world0,
     (false, "No matching row found for id 'Alice'")).
Proof.
  apply (mark_attendance_empty_roster clock0 csv_ok (mkDF 0 {[ "Name" := [] ]})
                                      "Alice").
  - by_compute.
  - reflexivity.
Defined.

Lemma mark_attendance_persists_witness :
  let r := mark_attendance clock0 csv_ok roster_alice "Alice" ["Dinner"]
                           (Some "teams.csv") world0 in
  r.2 = (true, "Marked")
  ∧ r.1.1 = (mark_attendance clock0 csv_ok roster_alice "Alice" ["Dinner"] None
                             world0).1.1
  ∧ disk r.1.2 = <["teams.csv" := r.1.1]> (disk world0).
Proof.
  apply (mark_attendance_persists clock0 csv_ok roster_alice "Alice" ["Dinner"]
                                  "teams.csv" world0).
  - vm_compute. reflexivity.
  - vm_compute. reflexivity.
  - reflexivity.
Defined.

Lemma cell_Some df k i v :
  cell df k i = Some v → ∃ col, data df !! k = Some col ∧ col !! i = Some v.
Proof.
  unfold cell. destruct (data df !! k) as [col|]; [|done]. simpl. eauto.
Qed.

(** X16.  [mark_attendance] keeps an attendance column paired with its
    timestamp column, when that column is not the timestamp column of a
    requested category and its timestamp column is not requested as a
    category: in every record the timestamp stays empty exactly when the
    flag is [False]. *)
Theorem mark_attendance_keeps_pairing now_at csv_error df identifier cats sp w c :
  wf df →
  paired df c →
  c ∉ (ts_col <$> cats) →
  ts_col c ∉ cats →
  paired (mark_attendance now_at csv_error df identifier cats sp w).1.1 c.
Proof.
  intros Hwf Hp Hc Ht i Hi. rewrite mark_nrows in Hi.
  destruct (Hp i Hi) as (b & t & Hb & Htc & Hbt).
  destruct (mark_frame_cases now_at csv_error df identifier cats sp w)
    as [[_ ->]|[_ ->]]; [by exists b, t|].
  set (mask := id_mask df identifier).
  apply cell_Some in Hb as (colc & Hcolc & Hb).
  apply cell_Some in Htc as (colt & Hcolt & Htc).
  destruct (decide (c ∈ cats)) as [Hin|Hin].
  - destruct (mark_loop_ts now_at mask cats (df, w) (ts_col c))
      as (j & _ & Hts); [done|by apply list_elem_of_fmap_2|].
    unfold cell. rewrite Hts, mark_loop_flag by done.
    rewrite bool_decide_eq_true_2 by done. cbn [fst]. rewrite Hcolc, Hcolt.
    simpl.
    destruct (lookup_lt_is_Some_2 mask i) as [m Hm].
    { subst mask. by rewrite id_mask_length. }
    destruct m.
    + exists true, (isoformat (now_at j)).
      rewrite !set_masked_lookup_true; [|done|by apply lookup_lt_Some in Htc
                                         |done|by apply lookup_lt_Some in Hb].
      split; [done|]. split; [done|].
      split; [intros _; apply isoformat_nonempty|done].
    + exists b, t. by rewrite !set_masked_lookup_false.
  - exists b, t. unfold cell. rewrite !mark_loop_flag.
    + rewrite !bool_decide_eq_false_2 by done. cbn [fst].
      by rewrite Hcolc, Hcolt.
    + intros (c' & Heq & Hc')%list_elem_of_fmap.
      apply ts_col_inj in Heq as <-. done.
    + done.
Qed.

Lemma mark_attendance_keeps_pairing_witness :
  paired (mark_attendance clock0 csv_ok (ensure_attendance_columns roster_alice)
                          "Alice" ["Pizza"; "MRD"] None world0).1.1 "Pizza".
Proof.
  apply (mark_attendance_keeps_pairing clock0 csv_ok
           (ensure_attendance_columns roster_alice) "Alice" ["Pizza"; "MRD"]
           None world0 "Pizza").
  - by_compute.
  - intros [|i] Hi; [|exfalso; revert Hi; vm_compute; lia].
    exists false, "". by vm_compute.
  - by_compute.
  - by_compute.
Defined.


(** ** [extract_from_file] *)

Section ExtractProps.

Import Extract.

Variable container_str : json → string.

Local Abbreviation member_row := (member_row container_str).
Local Abbreviation add_member := (add_member container_str).
Local Abbreviation add_members := (add_members container_str).

Lemma bind_Ok_inv {A B} (r : result A) (k : A → result B) b :
  (x ← r; k x) = Ok b → ∃ a, r = Ok a ∧ k a = Ok b.
Proof. destruct r as [a|e]; [eauto|done]. Qed.

Lemma dedupe_key_nonempty name srn email phone k :
  dedupe_key name srn email phone = Ok k → k ≠ "".
Proof.
  unfold dedupe_key.
  destruct (truthy srn) eqn:Hs; [intros [= <-]; by apply truthy_true|].
  destruct (truthy email) eqn:He; [intros [= <-]; by apply truthy_true|].
  destruct name as [| | | |n| |]; try done.
  destruct phone as [| | | |p| |]; try done.
  intros [= <-]. by destruct n.
Qed.

Lemma str_strip_stripped v s :
  str_strip v = Ok s → Manifest.strip is_space s = s.
Proof.
  destruct v; try done. intros [= <-]. apply strip_idempotent.
Qed.

Lemma member_row_inv team campus m k r :
  member_row team campus m = Ok (k, r) →
  row_key r = Ok k ∧ k ≠ ""
  ∧ Manifest.strip is_space (Srn r) = Srn r
  ∧ Manifest.strip is_space (Email r) = Email r.
Proof.
  unfold Extract.member_row.
  intros (d & _ & H)%bind_Ok_inv.
  apply bind_Ok_inv in H as (srn & Hsrn & H).
  apply bind_Ok_inv in H as (email & Hemail & H).
  apply bind_Ok_inv in H as (key & Hkey & H).
  injection H as <- <-. unfold row_key. simpl.
  split; [done|]. split; [by eapply dedupe_key_nonempty|].
  split; by eapply str_strip_stripped.
Qed.

Lemma add_member_inv team campus st m st' :
  add_member team campus st m = Ok st' →
  loop_inv st →
  loop_inv st'
  ∧ ∃ k r, member_row team campus m = Ok (k, r) ∧ k ∈ st'.2
           ∧ (st'.1 = st.1 ∨ st'.1 = (st.1 ++ [r])%list)
           ∧ st.2 ⊆ st'.2.
Proof.
  unfold Extract.add_member.
  intros ([k r] & Hm & H)%bind_Ok_inv (Hnd & Hall & Hseen). simpl in H.
  destruct (member_row_inv _ _ _ _ _ Hm) as (Hk & Hne & Hs & He).
  apply truthy_true in Hne. rewrite Hne in H. simpl in H.
  case_bool_decide as Hin; injection H as <-.
  - split; [done|]. exists k, r. repeat split; auto.
  - split.
    + split; [|split]; simpl.
      * rewrite fmap_app. apply NoDup_app. split; [done|]. split.
        -- intros x Hx. simpl. rewrite list_elem_of_singleton. intros ->.
           apply Hin, Hseen. by rewrite <- Hk.
        -- simpl. apply NoDup_singleton.
      * apply Forall_app. split.
        -- done.
        -- apply Forall_singleton. exists k.
           split; [done|]. split; [by apply truthy_true|done].
      * intros k'. rewrite fmap_app, elem_of_app, elem_of_union, <- Hseen.
        simpl. rewrite list_elem_of_singleton, elem_of_singleton, Hk.
        split; [intros [->|?]; auto|intros [?|[= ->]]; auto].
    + exists k, r. simpl. repeat split; auto; set_solver.
Qed.

Lemma add_members_inv team campus ms st st' :
  add_members team campus st ms = Ok st' →
  loop_inv st →
  loop_inv st'
  ∧ st.2 ⊆ st'.2
  ∧ (∃ new, st'.1 = (st.1 ++ new)%list
            ∧ new `sublist_of` rows_of container_str team campus ms)
  ∧ ∀ m, m ∈ ms → ∃ k r, member_row team campus m = Ok (k, r) ∧ k ∈ st'.2.
Proof.
  revert st. induction ms as [|m ms IH]; intros st H Hinv; simpl in H.
  - injection H as <-. split; [done|]. split; [done|]. split.
    + exists []. by rewrite app_nil_r.
    + intros m Hm. by apply elem_of_nil in Hm.
  - apply bind_Ok_inv in H as (st1 & H1 & H).
    destruct (add_member_inv _ _ _ _ _ H1 Hinv)
      as (Hinv1 & k & r & Hm & Hk & Hrows & Hsub1).
    destruct (IH _ H Hinv1) as (Hinv' & Hsub & (new & Hnew & Hsl) & Hall).
    split; [done|]. split; [set_solver|]. split.
    + unfold rows_of. simpl. rewrite Hm. simpl. fold (rows_of container_str team campus ms).
      destruct Hrows as [Heq|Heq]; rewrite Heq in Hnew.
      * exists new. split; [done|]. by apply sublist_cons.
      * exists (r :: new). split; [by rewrite Hnew, <- app_assoc|].
        by apply sublist_skip.
    + intros m' [->|Hm']%elem_of_cons; [|by apply Hall].
      exists k, r. split; [done|]. set_solver.
Qed.

Lemma loop_inv_start : loop_inv ([], ∅).
Proof.
  split; [apply NoDup_nil_2|]. split; [apply Forall_nil_2|].
  intros k. simpl. set_solver.
Qed.

Lemma extract_from_file_inv data rows :
  extract_from_file container_str data = Ok rows →
  ∃ d ms st,
    data = JDict d ∧ doc_members d = JList ms
    ∧ add_members (doc_team_name d) (doc_campus d) ([], ∅) ms = Ok st
    ∧ rows = st.1.
Proof.
  unfold Extract.extract_from_file.
  intros (d & Hd & H)%bind_Ok_inv.
  destruct data; try done. injection Hd as ->.
  destruct (doc_members d) as [| | | | |ms|] eqn:Hms; try done.
  apply bind_Ok_inv in H as (st & Hst & [= <-]).
  by exists d, ms, st.
Qed.

(** X17.  The records that [extract_from_file] returns have pairwise
    different deduplication keys, and no key is empty: a member without SRN
    and e-mail is kept under the key made of its name, two colons and its
    phone number, also when both are empty. *)
Theorem extract_keys_distinct data rows :
  extract_from_file container_str data = Ok rows →
  NoDup (row_key <$> rows)
  ∧ Forall (λ r, ∃ k, row_key r = Ok k ∧ k ≠ "") rows.
Proof.
  intros (d & ms & st & _ & _ & Hst & ->)%extract_from_file_inv.
  destruct (add_members_inv _ _ _ _ _ Hst loop_inv_start)
    as ((Hnd & Hall & _) & _).
  split; [done|]. eapply Forall_impl; [exact Hall|].
  intros r (k & ? & ? & _). eauto.
Qed.


(** X19.  No member is lost: for every member of the document a record
    with the member's key is returned. *)
Theorem extract_keeps_every_key d ms rows m :
  extract_from_file container_str (JDict d) = Ok rows →
  doc_members d = JList ms →
  m ∈ ms →
  ∃ k r0, member_row (doc_team_name d) (doc_campus d) m = Ok (k, r0)
          ∧ ∃ r, r ∈ rows ∧ row_key r = Ok k.
Proof.
  intros (d' & ms' & st & [= <-] & Hms & Hst & ->)%extract_from_file_inv Hms' Hm.
  rewrite Hms in Hms'. injection Hms' as ->.
  destruct (add_members_inv _ _ _ _ _ Hst loop_inv_start)
    as ((_ & _ & Hseen) & _ & _ & Hall).
  destruct (Hall m Hm) as (k & r0 & Hrow & Hk).
  exists k, r0. split; [done|].
  apply Hseen, list_elem_of_fmap in Hk as (r & Hr & Hin). eauto.
Qed.

(** X20.  The returned records are records of members, in the order of the
    members, so there are at most as many as members. *)
Theorem extract_sublist d ms rows :
  extract_from_file container_str (JDict d) = Ok rows →
  doc_members d = JList ms →
  rows `sublist_of` rows_of container_str (doc_team_name d) (doc_campus d) ms
  ∧ (length rows ≤ length ms)%nat.
Proof.
  intros (d' & ms' & st & [= <-] & Hms & Hst & ->)%extract_from_file_inv Hms'.
  rewrite Hms in Hms'. injection Hms' as ->.
  destruct (add_members_inv _ _ _ _ _ Hst loop_inv_start)
    as (_ & _ & (new & Hnew & Hsl) & _).
  simpl in Hnew. rewrite Hnew. split; [done|].
  apply sublist_length in Hsl. etrans; [exact Hsl|].
  unfold rows_of, omap. clear. induction ms as [|m ms IH]; simpl; [done|].
  destruct (Extract.member_row _ _ _ m); simpl; lia.
Qed.

End ExtractProps.

Section ExtractErrors.

Import Extract.

Variable container_str : json → string.

Local Abbreviation member_row := (member_row container_str).
Local Abbreviation add_members := (add_members container_str).

Lemma add_member_Ok team campus st m kr :
  member_row team campus m = Ok kr →
  ∃ st', Extract.add_member container_str team campus st m = Ok st'.
Proof.
  intros H. unfold Extract.add_member. rewrite H. simpl.
  destruct (negb _); [eauto|]. case_bool_decide; eauto.
Qed.

Lemma add_members_fails team campus ms m :
  m ∈ ms →
  (∃ e, member_row team campus m = Err e) →
  ∀ st, ∃ e, add_members team campus st ms = Err e.
Proof.
  intros Hm [e He]. induction ms as [|m' ms IH]; intros st.
  - by apply elem_of_nil in Hm.
  - simpl. apply elem_of_cons in Hm as [<-|Hm].
    + unfold Extract.add_member. rewrite He. simpl. eauto.
    + destruct (Extract.add_member _ _ _ _ m') as [st'|e']; simpl; [|eauto].
      by apply IH.
Qed.

(** X21.  A member whose [srn] is a number other than zero makes
    [extract_from_file] raise, so that none of the records of its document
    is returned. *)
Theorem extract_numeric_srn_fails d ms dm z :
  doc_members d = JList ms →
  JDict dm ∈ ms →
  dm !! "srn" = Some (JNum z) →
  z ≠ 0%Z →
  ∃ e, extract_from_file container_str (JDict d) = Err e.
Proof.
  intros Hms Hm Hsrn Hz. unfold Extract.extract_from_file. simpl. rewrite Hms.
  destruct (add_members_fails (doc_team_name d) (doc_campus d) ms (JDict dm) Hm)
    with (st := (@nil row, (∅ : gset string))) as [e He].
  - exists AttributeError.
    assert (dget dm "srn" or' dget dm "SRN" or' JStr "" = JNum z) as Hraw.
    { unfold dget. rewrite Hsrn. apply Z.eqb_neq in Hz.
      unfold por. simpl. rewrite Hz. simpl. by rewrite Hz. }
    unfold Extract.member_row. cbn [as_dict mbind result_bind].
    by rewrite Hraw.
  - exists e. by rewrite He.
Qed.

Lemma dget_textual d k :
  textual d k → dget d k = JNull ∨ ∃ s, dget d k = JStr s.
Proof. unfold dget. intros [->|[s ->]]; simpl; eauto. Qed.

Lemma por_text a b :
  (a = JNull ∨ ∃ s, a = JStr s) → (b = JNull ∨ ∃ s, b = JStr s) →
  por a b = JNull ∨ ∃ s, por a b = JStr s.
Proof.
  unfold por. intros [->|[s ->]] Hb; simpl; [done|].
  destruct (truthy s); eauto.
Qed.

Lemma por_text_default a :
  (a = JNull ∨ ∃ s, a = JStr s) → ∃ s, por a (JStr "") = JStr s.
Proof.
  unfold por. intros [->|[s ->]]; simpl; [eauto|].
  destruct (truthy s); eauto.
Qed.

Lemma member_row_textual team campus dm :
  Forall (textual dm) text_keys →
  ∃ kr, member_row team campus (JDict dm) = Ok kr.
Proof.
  intros H. rewrite Forall_forall in H.
  assert (∀ k, k ∈ text_keys → dget dm k = JNull ∨ ∃ s, dget dm k = JStr s) as Hk.
  { intros k Hk. by apply dget_textual, H. }
  unfold Extract.member_row. simpl.
  destruct (por_text_default (dget dm "name" or' dget dm "fullName"))
    as [n ->]; [apply por_text; apply Hk; unfold text_keys; set_solver|].
  destruct (por_text_default (dget dm "srn" or' dget dm "SRN"))
    as [s ->]; [apply por_text; apply Hk; unfold text_keys; set_solver|].
  destruct (por_text_default (dget dm "email"))
    as [e ->]; [apply Hk; unfold text_keys; set_solver|].
  destruct (por_text_default (dget dm "phone" or' dget dm "Phone"))
    as [p ->]; [apply por_text; apply Hk; unfold text_keys; set_solver|].
  simpl. unfold dedupe_key.
  destruct (truthy _); [simpl; eauto|].
  destruct (truthy _); simpl; eauto.
Qed.

(** X22.  A document whose members are objects in which the names, SRNs,
    e-mail addresses and phone numbers are texts, where present, is always
    extracted: no exception is raised. *)
Theorem extract_textual_succeeds d ms :
  doc_members d = JList ms →
  Forall (λ m, ∃ dm, m = JDict dm ∧ Forall (textual dm) text_keys) ms →
  ∃ rows, extract_from_file container_str (JDict d) = Ok rows.
Proof.
  intros Hms Hall. unfold Extract.extract_from_file. simpl. rewrite Hms.
  assert (∀ st, ∃ st', add_members (doc_team_name d) (doc_campus d) st ms
                       = Ok st') as H.
  { clear Hms.
    induction Hall as [|m l (dm & -> & Hdm) _ IH]; intros st; simpl; [eauto|].
    destruct (member_row_textual (doc_team_name d) (doc_campus d) dm Hdm)
      as [kr Hkr].
    destruct (add_member_Ok _ _ st _ _ Hkr) as [st1 ->]. simpl. apply IH. }
  destruct (H ([], ∅)) as [st ->]. simpl. eauto.
Qed.

End ExtractErrors.

Lemma extract_keys_distinct_witness :
  NoDup (Extract.row_key <$> Extract.team_rows)
  ∧ Forall (λ r, ∃ k, Extract.row_key r = Extract.Ok k ∧ k ≠ "")
           Extract.team_rows.
Proof.
  apply (extract_keys_distinct (λ _, "") Extract.team_doc).
  vm_compute. reflexivity.
Defined.


Lemma extract_keeps_every_key_witness :
  ∃ k r0,
    Extract.member_row (λ _, "") (Extract.doc_team_name Extract.team_dict)
                       (Extract.doc_campus Extract.team_dict)
                       (Extract.JDict ∅)
    = Extract.Ok (k, r0)
    ∧ ∃ r, r ∈ Extract.team_rows ∧ Extract.row_key r = Extract.Ok k.
Proof.
  apply (extract_keeps_every_key (λ _, "") Extract.team_dict
                                 Extract.team_members).
  - vm_compute. reflexivity.
  - vm_compute. reflexivity.
  - unfold Extract.team_members. rewrite !elem_of_cons. auto.
Defined.

Lemma extract_sublist_witness :
  Extract.team_rows
    `sublist_of` Extract.rows_of (λ _, "")
                   (Extract.doc_team_name Extract.team_dict)
                   (Extract.doc_campus Extract.team_dict) Extract.team_members
  ∧ (length Extract.team_rows ≤ length Extract.team_members)%nat.
Proof.
  apply (extract_sublist (λ _, "") Extract.team_dict).
  - vm_compute. reflexivity.
  - vm_compute. reflexivity.
Defined.

Lemma extract_numeric_srn_fails_witness :
  ∃ e, Extract.extract_from_file (λ _, "") (Extract.JDict Extract.numeric_dict)
       = Extract.Err e.
Proof.
  apply (extract_numeric_srn_fails (λ _, "") Extract.numeric_dict
           [Extract.JDict {[ "name" := Extract.JStr "Ann";
                             "srn" := Extract.JStr "S1" ]};
            Extract.JDict Extract.numeric_member]
           Extract.numeric_member 42).
  - vm_compute. reflexivity.
  - rewrite !elem_of_cons. auto.
  - vm_compute. reflexivity.
  - lia.
Defined.

Lemma extract_textual_succeeds_witness :
  ∃ rows, Extract.extract_from_file (λ _, "") (Extract.JDict Extract.team_dict)
          = Extract.Ok rows.
Proof.
  apply (extract_textual_succeeds (λ _, "") Extract.team_dict
                                  Extract.team_members).
  - vm_compute. reflexivity.
  - unfold Extract.team_members, Extract.text_keys.
    repeat (apply Forall_cons; split; [eexists; split; [reflexivity|]|]);
      [..|apply Forall_nil_2];
      repeat (apply Forall_cons; split;
              [first [by left; vm_compute | right; eexists; by vm_compute]|]);
      apply Forall_nil_2.
Defined.

(** ** More on the decoder *)

(** X23.  [decode_qr_from_bytes] raises exactly when the OpenCV attempt has
    produced no text, pyzbar is installed, and either [Image.open] or the
    pyzbar decoder raises on the bytes; the exception is theirs. *)
Theorem decode_qr_from_bytes_raises_iff {CvImage PilImage}
    (L : @Codec.libs CvImage PilImage) b e :
  Codec.decode_qr_from_bytes L b = Codec.Raises e
  ↔ Codec.import_cv2 L ≫= (λ cv2, Codec.cv2_attempt cv2 b) = None
    ∧ ∃ dec, Codec.import_pyzbar L = Some dec
             ∧ (Codec.Image_open L b = Codec.Raises e
                ∨ ∃ img, Codec.Image_open L b = Codec.Returns img
                         ∧ dec img = Codec.Raises e).
Proof.
  unfold Codec.decode_qr_from_bytes.
  destruct (Codec.import_cv2 L ≫= _) as [text|].
  { split; [done|]. by intros [? _]. }
  destruct (Codec.import_pyzbar L) as [dec|].
  2:{ split; [done|]. by intros (_ & ? & ? & _). }
  destruct (Codec.Image_open L b) as [img|e'].
  - destruct (dec img) as [[|data l]|e''] eqn:Hdec.
    + split; [done|]. intros (_ & ? & [= <-] & [?|(? & [= <-] & ?)]); congruence.
    + split.
      * by destruct (Codec.utf8_decode L data).
      * intros (_ & ? & [= <-] & [?|(? & [= <-] & ?)]); congruence.
    + split.
      * intros [= ->]. split; [done|]. exists dec. split; [done|].
        right. by exists img.
      * intros (_ & ? & [= <-] & [?|(? & [= <-] & ?)]); congruence.
  - split.
    + intros [= ->]. split; [done|]. exists dec. split; [done|]. by left.
    + intros (_ & ? & _ & [[= ->]|(? & ? & _)]); done.
Qed.
